(** * go-supabase-orm: the query builder of [query_builder.go]

    A shallow embedding of the [QueryBuilder] type, its configuration
    calls, [BuildURL], the request serialisation of [execute] and the
    terminal operations, followed by the properties established about
    them.

    Conventions of the embedding:
    - a Go [string] is a [string]; a Go [int] is a [Z] (no arithmetic is
      done on it, it is only printed with [%d]);
    - a slice is a [list] ([nil] and the empty slice are not told apart:
      the code only appends to, ranges over and takes [len] of them);
    - a Go map is a [gmap]; a map field that may hold the [nil] map is an
      [option (gmap _ _)], [None] being [nil];
    - a pointer that may be [nil] is an [option];
    - a method with a pointer receiver takes the builder and returns the
      updated builder; a call that can panic returns a [result]. *)

From Stdlib Require Import Ascii.
From stdpp Require Import gmap strings list fin_maps pretty.

Open Scope string_scope.
Open Scope list_scope.

(** ** Run-time panics *)

Inductive result (A : Type) : Type :=
| Panic (msg : string)
| Return (a : A).
Arguments Panic {A} msg.
Arguments Return {A} a.

#[global] Instance result_ret : MRet result := fun A a => Return a.

#[global] Instance result_bind : MBind result := fun A B k r =>
  match r with
  | Panic msg => Panic msg
  | Return a => k a
  end.

Definition nil_map_panic : string := "assignment to entry in nil map".
Definition nil_deref_panic : string :=
  "runtime error: invalid memory address or nil pointer dereference".

(** ** The parts of the Go library the builder uses *)

(** [strings.Join(elems, sep)] *)
Fixpoint strings_Join (elems : list string) (sep : string) : string :=
  match elems with
  | [] => ""
  | [e] => e
  | e :: rest => e +:+ sep +:+ strings_Join rest sep
  end.

(** The values handed to [Where], [OrWhere] and [Not] as [interface{}]:
    they are only printed, with the verb [%v]. *)
#[warning="-register-all"]
Inductive value : Type :=
| VNil
| VBool (b : bool)
| VInt (n : Z)
| VString (s : string)
| VSlice (elems : list value).

(** [fmt.Sprintf("%d", n)] *)
Definition fmt_d (n : Z) : string := pretty n.

(** [fmt.Sprintf("%v", v)]: a slice or array prints as its elements
    separated by one space, between square brackets. *)
Fixpoint fmt_v (v : value) : string :=
  match v with
  | VNil => "<nil>"
  | VBool b => if b then "true" else "false"
  | VInt n => fmt_d n
  | VString s => s
  | VSlice elems => "[" +:+ strings_Join (map fmt_v elems) " " +:+ "]"
  end.

(** [net/http]'s method names *)
Definition MethodGet : string := "GET".
Definition MethodPost : string := "POST".
Definition MethodPatch : string := "PATCH".
Definition MethodDelete : string := "DELETE".

(** ** Data model *)

Record Client : Type := {
  baseURL : string;
  apiKey : string
}.

Record join : Type := {
  foreignTable : string;
  localColumn : string;
  operator : string;
  foreignColumn : string
}.

Record QueryBuilder : Type := {
  table : string;
  selectQuery : string;
  filters : list string;
  orFilters : list string;
  andFilters : list string;
  notFilters : list string;
  orderQuery : string;
  limitQuery : string;
  offsetQuery : string;
  rangeQuery : string;
  countQuery : string;
  singleResult : bool;
  headers : option (gmap string string);
  joins : list join;
  rawQuery : string;
  method : string;
  client : option Client
}.

(** Field assignments [q.f = x]. *)
Definition set_selectQuery (x : string) (q : QueryBuilder) : QueryBuilder :=
  {| table := table q; selectQuery := x; filters := filters q;
     orFilters := orFilters q; andFilters := andFilters q;
     notFilters := notFilters q; orderQuery := orderQuery q;
     limitQuery := limitQuery q; offsetQuery := offsetQuery q;
     rangeQuery := rangeQuery q; countQuery := countQuery q;
     singleResult := singleResult q; headers := headers q; joins := joins q;
     rawQuery := rawQuery q; method := method q; client := client q |}.

Definition set_filters (x : list string) (q : QueryBuilder) : QueryBuilder :=
  {| table := table q; selectQuery := selectQuery q; filters := x;
     orFilters := orFilters q; andFilters := andFilters q;
     notFilters := notFilters q; orderQuery := orderQuery q;
     limitQuery := limitQuery q; offsetQuery := offsetQuery q;
     rangeQuery := rangeQuery q; countQuery := countQuery q;
     singleResult := singleResult q; headers := headers q; joins := joins q;
     rawQuery := rawQuery q; method := method q; client := client q |}.

Definition set_orFilters (x : list string) (q : QueryBuilder) : QueryBuilder :=
  {| table := table q; selectQuery := selectQuery q; filters := filters q;
     orFilters := x; andFilters := andFilters q;
     notFilters := notFilters q; orderQuery := orderQuery q;
     limitQuery := limitQuery q; offsetQuery := offsetQuery q;
     rangeQuery := rangeQuery q; countQuery := countQuery q;
     singleResult := singleResult q; headers := headers q; joins := joins q;
     rawQuery := rawQuery q; method := method q; client := client q |}.

Definition set_andFilters (x : list string) (q : QueryBuilder) : QueryBuilder :=
  {| table := table q; selectQuery := selectQuery q; filters := filters q;
     orFilters := orFilters q; andFilters := x;
     notFilters := notFilters q; orderQuery := orderQuery q;
     limitQuery := limitQuery q; offsetQuery := offsetQuery q;
     rangeQuery := rangeQuery q; countQuery := countQuery q;
     singleResult := singleResult q; headers := headers q; joins := joins q;
     rawQuery := rawQuery q; method := method q; client := client q |}.

Definition set_notFilters (x : list string) (q : QueryBuilder) : QueryBuilder :=
  {| table := table q; selectQuery := selectQuery q; filters := filters q;
     orFilters := orFilters q; andFilters := andFilters q;
     notFilters := x; orderQuery := orderQuery q;
     limitQuery := limitQuery q; offsetQuery := offsetQuery q;
     rangeQuery := rangeQuery q; countQuery := countQuery q;
     singleResult := singleResult q; headers := headers q; joins := joins q;
     rawQuery := rawQuery q; method := method q; client := client q |}.

Definition set_orderQuery (x : string) (q : QueryBuilder) : QueryBuilder :=
  {| table := table q; selectQuery := selectQuery q; filters := filters q;
     orFilters := orFilters q; andFilters := andFilters q;
     notFilters := notFilters q; orderQuery := x;
     limitQuery := limitQuery q; offsetQuery := offsetQuery q;
     rangeQuery := rangeQuery q; countQuery := countQuery q;
     singleResult := singleResult q; headers := headers q; joins := joins q;
     rawQuery := rawQuery q; method := method q; client := client q |}.

Definition set_limitQuery (x : string) (q : QueryBuilder) : QueryBuilder :=
  {| table := table q; selectQuery := selectQuery q; filters := filters q;
     orFilters := orFilters q; andFilters := andFilters q;
     notFilters := notFilters q; orderQuery := orderQuery q;
     limitQuery := x; offsetQuery := offsetQuery q;
     rangeQuery := rangeQuery q; countQuery := countQuery q;
     singleResult := singleResult q; headers := headers q; joins := joins q;
     rawQuery := rawQuery q; method := method q; client := client q |}.

Definition set_offsetQuery (x : string) (q : QueryBuilder) : QueryBuilder :=
  {| table := table q; selectQuery := selectQuery q; filters := filters q;
     orFilters := orFilters q; andFilters := andFilters q;
     notFilters := notFilters q; orderQuery := orderQuery q;
     limitQuery := limitQuery q; offsetQuery := x;
     rangeQuery := rangeQuery q; countQuery := countQuery q;
     singleResult := singleResult q; headers := headers q; joins := joins q;
     rawQuery := rawQuery q; method := method q; client := client q |}.

Definition set_rangeQuery (x : string) (q : QueryBuilder) : QueryBuilder :=
  {| table := table q; selectQuery := selectQuery q; filters := filters q;
     orFilters := orFilters q; andFilters := andFilters q;
     notFilters := notFilters q; orderQuery := orderQuery q;
     limitQuery := limitQuery q; offsetQuery := offsetQuery q;
     rangeQuery := x; countQuery := countQuery q;
     singleResult := singleResult q; headers := headers q; joins := joins q;
     rawQuery := rawQuery q; method := method q; client := client q |}.

Definition set_countQuery (x : string) (q : QueryBuilder) : QueryBuilder :=
  {| table := table q; selectQuery := selectQuery q; filters := filters q;
     orFilters := orFilters q; andFilters := andFilters q;
     notFilters := notFilters q; orderQuery := orderQuery q;
     limitQuery := limitQuery q; offsetQuery := offsetQuery q;
     rangeQuery := rangeQuery q; countQuery := x;
     singleResult := singleResult q; headers := headers q; joins := joins q;
     rawQuery := rawQuery q; method := method q; client := client q |}.

Definition set_singleResult (x : bool) (q : QueryBuilder) : QueryBuilder :=
  {| table := table q; selectQuery := selectQuery q; filters := filters q;
     orFilters := orFilters q; andFilters := andFilters q;
     notFilters := notFilters q; orderQuery := orderQuery q;
     limitQuery := limitQuery q; offsetQuery := offsetQuery q;
     rangeQuery := rangeQuery q; countQuery := countQuery q;
     singleResult := x; headers := headers q; joins := joins q;
     rawQuery := rawQuery q; method := method q; client := client q |}.

Definition set_headers (x : option (gmap string string)) (q : QueryBuilder)
  : QueryBuilder :=
  {| table := table q; selectQuery := selectQuery q; filters := filters q;
     orFilters := orFilters q; andFilters := andFilters q;
     notFilters := notFilters q; orderQuery := orderQuery q;
     limitQuery := limitQuery q; offsetQuery := offsetQuery q;
     rangeQuery := rangeQuery q; countQuery := countQuery q;
     singleResult := singleResult q; headers := x; joins := joins q;
     rawQuery := rawQuery q; method := method q; client := client q |}.

Definition set_joins (x : list join) (q : QueryBuilder) : QueryBuilder :=
  {| table := table q; selectQuery := selectQuery q; filters := filters q;
     orFilters := orFilters q; andFilters := andFilters q;
     notFilters := notFilters q; orderQuery := orderQuery q;
     limitQuery := limitQuery q; offsetQuery := offsetQuery q;
     rangeQuery := rangeQuery q; countQuery := countQuery q;
     singleResult := singleResult q; headers := headers q; joins := x;
     rawQuery := rawQuery q; method := method q; client := client q |}.

Definition set_rawQuery (x : string) (q : QueryBuilder) : QueryBuilder :=
  {| table := table q; selectQuery := selectQuery q; filters := filters q;
     orFilters := orFilters q; andFilters := andFilters q;
     notFilters := notFilters q; orderQuery := orderQuery q;
     limitQuery := limitQuery q; offsetQuery := offsetQuery q;
     rangeQuery := rangeQuery q; countQuery := countQuery q;
     singleResult := singleResult q; headers := headers q; joins := joins q;
     rawQuery := x; method := method q; client := client q |}.

Definition set_method (x : string) (q : QueryBuilder) : QueryBuilder :=
  {| table := table q; selectQuery := selectQuery q; filters := filters q;
     orFilters := orFilters q; andFilters := andFilters q;
     notFilters := notFilters q; orderQuery := orderQuery q;
     limitQuery := limitQuery q; offsetQuery := offsetQuery q;
     rangeQuery := rangeQuery q; countQuery := countQuery q;
     singleResult := singleResult q; headers := headers q; joins := joins q;
     rawQuery := rawQuery q; method := x; client := client q |}.

(** No call of [query_builder.go] assigns [client]: [set_client] stands
    for a struct literal written by other code of the package. *)
Definition set_client (x : option Client) (q : QueryBuilder) : QueryBuilder :=
  {| table := table q; selectQuery := selectQuery q; filters := filters q;
     orFilters := orFilters q; andFilters := andFilters q;
     notFilters := notFilters q; orderQuery := orderQuery q;
     limitQuery := limitQuery q; offsetQuery := offsetQuery q;
     rangeQuery := rangeQuery q; countQuery := countQuery q;
     singleResult := singleResult q; headers := headers q; joins := joins q;
     rawQuery := rawQuery q; method := method q; client := x |}.

(** ** Constructors *)

(** [NewQueryBuilder]: the struct literal names [table] and [filters]
    only; every other field keeps its zero value, so [headers] is the nil
    map, [method] the empty string and [client] the nil pointer. *)
Definition NewQueryBuilder (table : string) : QueryBuilder :=
  {| table := table; selectQuery := ""; filters := [];
     orFilters := []; andFilters := []; notFilters := [];
     orderQuery := ""; limitQuery := ""; offsetQuery := "";
     rangeQuery := ""; countQuery := ""; singleResult := false;
     headers := None; joins := []; rawQuery := ""; method := "";
     client := None |}.

Definition NewClient (baseURL apiKey : string) : Client :=
  {| baseURL := baseURL; apiKey := apiKey |}.

(** [Client.From]: the receiver [c] is not used. *)
Definition From (c : Client) (table : string) : QueryBuilder :=
  let qb := NewQueryBuilder table in
  qb.

(** ** Configuration calls *)

Definition Select (q : QueryBuilder) (columns : list string) : QueryBuilder :=
  set_selectQuery (strings_Join columns ",") q.

Definition Where (q : QueryBuilder) (column operator : string) (v : value)
  : QueryBuilder :=
  set_filters (filters q ++ [column +:+ "." +:+ operator +:+ "." +:+ fmt_v v]) q.

Definition OrWhere (q : QueryBuilder) (column operator : string) (v : value)
  : QueryBuilder :=
  set_filters
    (filters q ++ ["or(" +:+ column +:+ "." +:+ operator +:+ "." +:+ fmt_v v +:+ ")"]) q.

Definition WhereRaw (q : QueryBuilder) (condition : string) : QueryBuilder :=
  set_filters (filters q ++ ["and(" +:+ condition +:+ ")"]) q.

Definition Order (q : QueryBuilder) (column direction : string) : QueryBuilder :=
  set_orderQuery ("order=" +:+ column +:+ "." +:+ direction) q.

Definition Limit (q : QueryBuilder) (limit : Z) : QueryBuilder :=
  set_limitQuery ("limit=" +:+ fmt_d limit) q.

Definition Offset (q : QueryBuilder) (offset : Z) : QueryBuilder :=
  set_offsetQuery ("offset=" +:+ fmt_d offset) q.

Definition Range (q : QueryBuilder) (start end_ : Z) : QueryBuilder :=
  set_rangeQuery ("range=" +:+ fmt_d start +:+ "-" +:+ fmt_d end_) q.

(** [Header]: [q.headers[key] = value]; Go panics when the map is nil. *)
Definition Header (q : QueryBuilder) (key val : string) : result QueryBuilder :=
  match headers q with
  | None => Panic nil_map_panic
  | Some h => Return (set_headers (Some (<[key := val]> h)) q)
  end.

Definition Join (q : QueryBuilder)
    (foreignTable localColumn operator foreignColumn : string) : QueryBuilder :=
  set_joins
    (joins q ++ [{| foreignTable := foreignTable; localColumn := localColumn;
                    operator := operator; foreignColumn := foreignColumn |}]) q.

Definition InnerJoin (q : QueryBuilder)
    (foreignTable localColumn foreignColumn : string) : QueryBuilder :=
  Join q foreignTable localColumn "eq" foreignColumn.

Definition LeftJoin (q : QueryBuilder)
    (foreignTable localColumn foreignColumn : string) : result QueryBuilder :=
  let q := Join q foreignTable localColumn "eq" foreignColumn in
  q ← Header q "Prefer" "missing=null";
  Return q.

Definition Raw (q : QueryBuilder) (query : string) : QueryBuilder :=
  set_rawQuery query q.

Definition Count (q : QueryBuilder) : QueryBuilder :=
  set_countQuery "count=exact" q.

Definition Single (q : QueryBuilder) : QueryBuilder :=
  set_singleResult true q.

Definition Filter (q : QueryBuilder) (column operator : string) (v : value)
  : QueryBuilder :=
  Where q column operator v.

(** [len(filters) > 0] *)
Definition Or (q : QueryBuilder) (fs : list string) : QueryBuilder :=
  if (0 <? length fs)%nat
  then set_orFilters (orFilters q ++ ["or=(" +:+ strings_Join fs "," +:+ ")"]) q
  else q.

Definition And (q : QueryBuilder) (fs : list string) : QueryBuilder :=
  if (0 <? length fs)%nat
  then set_andFilters (andFilters q ++ ["and=(" +:+ strings_Join fs "," +:+ ")"]) q
  else q.

Definition Not (q : QueryBuilder) (column operator : string) (v : value)
  : QueryBuilder :=
  let f := "not." +:+ column +:+ "=" +:+ operator +:+ "." +:+ fmt_v v in
  set_notFilters (notFilters q ++ [f]) q.

Definition ForeignTable (q : QueryBuilder) (foreignTable : string) : QueryBuilder :=
  NewQueryBuilder (table q +:+ "." +:+ foreignTable).

(** ** [BuildURL] *)

Definition BuildURL (q : QueryBuilder) : string :=
  let url := "/" +:+ table q in
  let params : list string := [] in
  let params :=
    if decide (selectQuery q ≠ "") then (params ++ [selectQuery q])%list else params in
  let params := foldl (fun params f => (params ++ [f])%list) params (filters q) in
  let params :=
    if decide (orderQuery q ≠ "") then (params ++ [orderQuery q])%list else params in
  let params :=
    if decide (limitQuery q ≠ "") then (params ++ [limitQuery q])%list else params in
  let params :=
    if decide (offsetQuery q ≠ "") then (params ++ [offsetQuery q])%list else params in
  let params :=
    if decide (countQuery q ≠ "") then (params ++ [countQuery q])%list else params in
  if (0 <? length params)%nat
  then url +:+ "?" +:+ strings_Join params "&"
  else url.

(** ** [net/url]: [url.Values] is a [map[string][]string] *)

Definition Values_Set (key val : string) (v : gmap string (list string))
  : gmap string (list string) :=
  <[key := [val]]> v.

Definition Values_Add (key val : string) (v : gmap string (list string))
  : gmap string (list string) :=
  <[key := (default [] (v !! key) ++ [val])%list]> v.

(** The [url.Values] that [execute] builds when there is no raw query
    (the block under "Build query parameters"). *)
Definition queryParams (q : QueryBuilder) : gmap string (list string) :=
  let queryParams : gmap string (list string) := ∅ in
  let queryParams :=
    if decide (selectQuery q ≠ "")
    then Values_Set "select" (selectQuery q) queryParams
    else queryParams in
  let queryParams :=
    if (0 <? length (joins q))%nat then
      let joinSelects :=
        foldl (fun js j => (js ++ [foreignTable j +:+ "(*)"])%list) [] (joins q) in
      if decide (selectQuery q ≠ "")
      then Values_Set "select"
             (selectQuery q +:+ "," +:+ strings_Join joinSelects ",") queryParams
      else Values_Set "select" ("*," +:+ strings_Join joinSelects ",") queryParams
    else queryParams in
  let queryParams :=
    foldl (fun qp f => Values_Add "and" f qp) queryParams (filters q) in
  let queryParams :=
    if decide (orderQuery q ≠ "")
    then Values_Set "order" (orderQuery q) queryParams
    else queryParams in
  let queryParams :=
    if decide (limitQuery q ≠ "")
    then Values_Set "limit" (limitQuery q) queryParams
    else queryParams in
  let queryParams :=
    if decide (offsetQuery q ≠ "")
    then Values_Set "offset" (offsetQuery q) queryParams
    else queryParams in
  queryParams.

(** ** The HTTP collaborator and the JSON codec

    [resty], [net/http] and [encoding/json] are outside the repository.
    A request is the record of what the builder put into it. What these
    libraries compute is taken as given: the answer of the HTTP client to
    a request, the syntax check and the decoder of [json.Unmarshal], the
    canonical form of a header name, and the order in which [range]
    visits a map. *)

Inductive error : Type :=
| TransportError (msg : string)
| Errorf (msg : string)
| SyntaxError (msg : string)
| InvalidUnmarshalError
| UnmarshalError (msg : string).

(** The local type [sqlRequest] of [execute]; its only field carries the
    tag [json:"query"]. *)
Record sqlRequest : Type := { Query : string }.

Record Response : Type := {
  resp_IsError : bool;
  resp_Body : string;
  resp_String : string
}.

Section Transport.
Context {V : Type}.

(** The [interface{}] argument of a terminal operation: the untyped
    [nil], a pointer to a caller variable that holds [v], a value that
    is not a pointer, or the [sqlRequest] that [execute] builds. *)
Inductive iface : Type :=
| INil
| IPtr (v : V)
| IVal (v : V)
| ISqlRequest (r : sqlRequest).

Record Request : Type := {
  req_method : string;
  req_url : string;
  req_header : gmap string string;
  req_query : gmap string (list string);
  req_body : option iface
}.

Inductive RoundTrip : Type :=
| Failed (msg : string)
| Answered (resp : Response).

(** What a call leaves behind: the returned [error] ([None] is [nil]),
    the caller's argument with the value its pointee now has, and the
    requests handed to the HTTP client (the calls of [req.Get],
    [req.Post], [req.Patch] and [req.Delete]), in order. *)
Record Outcome : Type := {
  out_err : option error;
  out_data : iface;
  out_sent : list Request
}.

(** The syntax check that [json.Unmarshal] runs on the body before it
    looks at the destination: [Some msg] is its [SyntaxError]. *)
Variable json_checkValid : string -> option string.

(** All of [json.Unmarshal] on a pointer destination, the syntax check
    included: the new value of the pointee and the error, if any. *)
Variable json_decode : string -> V -> V * option string.

(** [textproto.CanonicalMIMEHeaderKey], which [http.Header.Set] applies to
    a header name. *)
Variable canonical : string -> string.

(** The entries of a map in the order in which a [range] statement
    visits them. Go leaves the order open. *)
Variable range_order : gmap string string -> list (string * string).

(** The HTTP client, from the call of [req.Get], [req.Post], [req.Patch]
    or [req.Delete] to its return: [Failed] is the error it returns,
    whether the network failed or the client gave up before using it (a
    body it cannot encode under the request's content type, for one). *)
Variable transport : Request -> RoundTrip.

(** [json.Unmarshal(body, v)]: a body that is not valid JSON is a syntax
    error; then a destination that is nil or not a pointer is refused. *)
Definition json_Unmarshal (body : string) (v : iface) : iface * option error :=
  match v with
  | IPtr x =>
      let '(x', e) := json_decode body x in
      (IPtr x', UnmarshalError <$> e)
  | _ =>
      match json_checkValid body with
      | Some msg => (v, Some (SyntaxError msg))
      | None => (v, Some InvalidUnmarshalError)
      end
  end.

(** Modelled from the spec: [Client.GetBaseURL] and [Client.RawRequest]
    are methods of [Client] declared outside [query_builder.go], with
    the [Client] type itself. The client "holds a base URL and API key" and "owns
    the HTTP request factory used by builders": [GetBaseURL] reads the
    base URL, [RawRequest] hands out a fresh request. Both dereference
    their receiver. *)
Definition GetBaseURL (c : option Client) : result string :=
  match c with
  | None => Panic nil_deref_panic
  | Some c => Return (baseURL c)
  end.

Definition RawRequest (c : option Client) : result Request :=
  match c with
  | None => Panic nil_deref_panic
  | Some _ =>
      Return {| req_method := ""; req_url := ""; req_header := ∅;
                req_query := ∅; req_body := None |}
  end.

(** [req.SetHeader(key, val)] is [http.Header.Set]: the value is stored
    under the canonical form of the name and replaces what was there. *)
Definition SetHeader (key val : string) (r : Request) : Request :=
  {| req_method := req_method r; req_url := req_url r;
     req_header := <[canonical key := val]> (req_header r);
     req_query := req_query r; req_body := req_body r |}.

(** Every value of every key is added to the request's own parameters. *)
Definition SetQueryParamsFromValues (params : gmap string (list string))
    (r : Request) : Request :=
  {| req_method := req_method r; req_url := req_url r;
     req_header := req_header r;
     req_query :=
       union_with (fun old new => Some (old ++ new)%list) (req_query r) params;
     req_body := req_body r |}.

Definition SetBody (body : iface) (r : Request) : Request :=
  {| req_method := req_method r; req_url := req_url r;
     req_header := req_header r; req_query := req_query r;
     req_body := Some body |}.

(** [req.Get(url)], [req.Post(url)], ...: the request as the HTTP client
    receives it. *)
Definition Execute_request (method url : string) (r : Request) : Request :=
  {| req_method := method; req_url := url; req_header := req_header r;
     req_query := req_query r; req_body := req_body r |}.

(** [for k, v := range q.headers { req.SetHeader(k, v) }]; ranging over
    the nil map does nothing. *)
Definition add_custom_headers (h : option (gmap string string)) (r : Request)
  : Request :=
  match h with
  | None => r
  | Some h => foldl (fun r kv => SetHeader kv.1 kv.2 r) r (range_order h)
  end.

(** ** [execute] *)

(** The part of [execute] up to the [switch]: endpoint, method, body
    and request. *)
Definition prepare (q : QueryBuilder) (data : iface)
  : result (string * QueryBuilder * iface * Request) :=
  '(endpoint, q, data) ←
    (if decide (rawQuery q ≠ "") then
       base ← GetBaseURL (client q);
       let endpoint := base +:+ "/rest/v1/rpc/execute_sql" in
       let q := set_method MethodPost q in
       let data := ISqlRequest {| Query := rawQuery q |} in
       Return (endpoint, q, data)
     else
       base ← GetBaseURL (client q);
       let endpoint := base +:+ "/rest/v1/" +:+ table q in
       Return (endpoint, q, data));
  req ← RawRequest (client q);
  let req := add_custom_headers (headers q) req in
  let req :=
    if decide (rawQuery q = "") then
      let req :=
        if decide (rangeQuery q ≠ "")
        then SetHeader "Range" (rangeQuery q) req
        else req in
      SetQueryParamsFromValues (queryParams q) req
    else req in
  Return (endpoint, q, data, req).

Definition is_nil (data : iface) : bool :=
  match data with
  | INil => true
  | _ => false
  end.

(** The part of [execute] after the [switch]: [caller] is the argument
    the caller passed, [data] what the local variable holds by now (the
    two differ for a raw query only). *)
Definition finish (q : QueryBuilder) (caller data : iface) (sent : Request)
  : Outcome :=
  match transport sent with
  | Failed msg =>
      {| out_err := Some (TransportError msg); out_data := caller;
         out_sent := [sent] |}
  | Answered resp =>
      if resp_IsError resp then
        {| out_err := Some (Errorf ("API error: " +:+ resp_String resp));
           out_data := caller; out_sent := [sent] |}
      else if bool_decide (method q = MethodGet) && negb (is_nil data) then
        let '(data', e) := json_Unmarshal (resp_Body resp) data in
        {| out_err := e;
           out_data := if decide (rawQuery q ≠ "") then caller else data';
           out_sent := [sent] |}
      else if bool_decide (method q = MethodPost) && negb (is_nil data) then
        let '(data', e) := json_Unmarshal (resp_Body resp) data in
        {| out_err := e;
           out_data := if decide (rawQuery q ≠ "") then caller else data';
           out_sent := [sent] |}
      else
        {| out_err := None; out_data := caller; out_sent := [sent] |}
  end.

Definition execute (q : QueryBuilder) (data : iface)
  : result (QueryBuilder * Outcome) :=
  let caller := data in
  '(endpoint, q, data, req) ← prepare q data;
  if decide (method q = MethodGet) then
    Return (q, finish q caller data (Execute_request MethodGet endpoint req))
  else if decide (method q = MethodPost) then
    Return (q, finish q caller data
                 (Execute_request MethodPost endpoint (SetBody data req)))
  else if decide (method q = MethodPatch) then
    Return (q, finish q caller data
                 (Execute_request MethodPatch endpoint (SetBody data req)))
  else if decide (method q = MethodDelete) then
    Return (q, finish q caller data (Execute_request MethodDelete endpoint req))
  else
    Return (q, {| out_err :=
                    Some (Errorf ("unsupported HTTP method: " +:+ method q));
                  out_data := caller; out_sent := [] |}).

(** ** Terminal operations *)

Definition Get (q : QueryBuilder) (res : iface) : result (QueryBuilder * Outcome) :=
  execute q res.

Definition First (q : QueryBuilder) (res : iface) : result (QueryBuilder * Outcome) :=
  let q := Limit q 1 in
  execute q res.

Definition Insert (q : QueryBuilder) (data : iface) : result (QueryBuilder * Outcome) :=
  let q := set_method MethodPost q in
  execute q data.

Definition Update (q : QueryBuilder) (data : iface) : result (QueryBuilder * Outcome) :=
  let q := set_method MethodPatch q in
  execute q data.

Definition Delete (q : QueryBuilder) : result (QueryBuilder * Outcome) :=
  let q := set_method MethodDelete q in
  execute q INil.

(** [Execute]: the body is [return nil]. *)
Definition Execute (q : QueryBuilder) (res : iface) : result (QueryBuilder * Outcome) :=
  Return (q, {| out_err := None; out_data := res; out_sent := [] |}).

(** [Client.RPC]: the body is [return nil]. *)
Definition RPC (c : Client) (procedure : string)
    (params : option (gmap string value)) (res : iface) : result Outcome :=
  Return {| out_err := None; out_data := res; out_sent := [] |}.

End Transport.

Arguments iface V : clear implicits.
Arguments Request V : clear implicits.
Arguments Outcome V : clear implicits.

(** ** Chains of configuration calls *)

Inductive Config : Type :=
| CSelect (columns : list string)
| CWhere (column operator : string) (v : value)
| COrWhere (column operator : string) (v : value)
| CWhereRaw (condition : string)
| COrder (column direction : string)
| CLimit (limit : Z)
| COffset (offset : Z)
| CRange (start end_ : Z)
| CHeader (key val : string)
| CJoin (foreignTable localColumn operator foreignColumn : string)
| CInnerJoin (foreignTable localColumn foreignColumn : string)
| CLeftJoin (foreignTable localColumn foreignColumn : string)
| CRaw (query : string)
| CCount
| CSingle
| CFilter (column operator : string) (v : value)
| COr (fs : list string)
| CAnd (fs : list string)
| CNot (column operator : string) (v : value)
| CForeignTable (foreignTable : string).

Definition configure (q : QueryBuilder) (c : Config) : result QueryBuilder :=
  match c with
  | CSelect columns => Return (Select q columns)
  | CWhere column operator v => Return (Where q column operator v)
  | COrWhere column operator v => Return (OrWhere q column operator v)
  | CWhereRaw condition => Return (WhereRaw q condition)
  | COrder column direction => Return (Order q column direction)
  | CLimit limit => Return (Limit q limit)
  | COffset offset => Return (Offset q offset)
  | CRange start end_ => Return (Range q start end_)
  | CHeader key val => Header q key val
  | CJoin ft lc op fc => Return (Join q ft lc op fc)
  | CInnerJoin ft lc fc => Return (InnerJoin q ft lc fc)
  | CLeftJoin ft lc fc => LeftJoin q ft lc fc
  | CRaw query => Return (Raw q query)
  | CCount => Return (Count q)
  | CSingle => Return (Single q)
  | CFilter column operator v => Return (Filter q column operator v)
  | COr fs => Return (Or q fs)
  | CAnd fs => Return (And q fs)
  | CNot column operator v => Return (Not q column operator v)
  | CForeignTable ft => Return (ForeignTable q ft)
  end.

(** The builder states that a caller accumulates: a builder of
    [NewQueryBuilder] or [Client.From], followed by configuration calls
    that returned. *)
Inductive accumulated : QueryBuilder -> Prop :=
| acc_NewQueryBuilder table : accumulated (NewQueryBuilder table)
| acc_From c table : accumulated (From c table)
| acc_configure q c q' :
    accumulated q -> configure q c = Return q' -> accumulated q'.

(** [BuildURL] as the specification words it: the fragments in their fixed
    order, the empty ones left out, joined by [&] after a [?] that is
    there only when a fragment is. *)
Definition fragments (q : QueryBuilder) : list string :=
  [selectQuery q] ++ filters q
    ++ [orderQuery q; limitQuery q; offsetQuery q; countQuery q].

Definition BuildURL_spec (q : QueryBuilder) : string :=
  match filter (fun s => s ≠ "") (fragments q) with
  | [] => "/" +:+ table q
  | fs => "/" +:+ table q +:+ "?" +:+ strings_Join fs "&"
  end.

(** ** The terminal operations that go through [execute] *)

Inductive Terminal : Type := TGet | TFirst | TInsert | TUpdate | TDelete.

Definition terminal {V} (json_checkValid : string -> option string)
    (json_decode : string -> V -> V * option string)
    (canonical : string -> string)
    (range_order : gmap string string -> list (string * string))
    (transport : Request V -> RoundTrip) (t : Terminal)
    (q : QueryBuilder) (data : iface V) : result (QueryBuilder * Outcome V) :=
  match t with
  | TGet => Get json_checkValid json_decode canonical range_order transport q data
  | TFirst => First json_checkValid json_decode canonical range_order transport q data
  | TInsert => Insert json_checkValid json_decode canonical range_order transport q data
  | TUpdate => Update json_checkValid json_decode canonical range_order transport q data
  | TDelete => Delete json_checkValid json_decode canonical range_order transport q
  end.

(** ** Sample inputs *)

(** A syntax check that refuses the empty body. *)
Definition sample_checkValid (body : string) : option string :=
  if decide (body = "") then Some "unexpected end of JSON input" else None.

Definition sample_decode (body : string) (old : string) : string * option string :=
  (body, None).

Definition is_lower (c : Ascii.ascii) : bool :=
  (97 <=? Ascii.nat_of_ascii c)%nat && (Ascii.nat_of_ascii c <=? 122)%nat.

Definition is_upper (c : Ascii.ascii) : bool :=
  (65 <=? Ascii.nat_of_ascii c)%nat && (Ascii.nat_of_ascii c <=? 90)%nat.

Definition is_digit (c : Ascii.ascii) : bool :=
  (48 <=? Ascii.nat_of_ascii c)%nat && (Ascii.nat_of_ascii c <=? 57)%nat.

Fixpoint capitalise (upper : bool) (s : string) : string :=
  match s with
  | EmptyString => EmptyString
  | String c rest =>
      let c' :=
        if upper && is_lower c then Ascii.ascii_of_nat (Ascii.nat_of_ascii c - 32)
        else if negb upper && is_upper c then Ascii.ascii_of_nat (Ascii.nat_of_ascii c + 32)
        else c in
      String c' (capitalise (Ascii.eqb c' "-"%char) rest)
  end.

Fixpoint letters_digits_hyphens (s : string) : bool :=
  match s with
  | EmptyString => true
  | String c rest =>
      (is_lower c || is_upper c || is_digit c || Ascii.eqb c "-"%char)
      && letters_digits_hyphens rest
  end.

(** The canonical form of a header name made of letters, digits and
    hyphens: an upper-case letter first and after each hyphen, lower case
    elsewhere. Other names are left as they are. *)
Definition sample_canonical (key : string) : string :=
  if letters_digits_hyphens key then capitalise true key else key.

(** One order of visiting a map. *)
Definition sample_range_order (m : gmap string string) : list (string * string) :=
  map_to_list m.

Definition sample_response : Response :=
  {| resp_IsError := false; resp_Body := "[]"; resp_String := "[]" |}.

Definition sample_transport (r : Request string) : RoundTrip :=
  Answered sample_response.

Definition sample_client : Client := NewClient "http://localhost" "fake-api-key".

(** The builder of [TestExecute]. *)
Definition sample_builder : QueryBuilder :=
  Filter (Select (From sample_client "users") ["id"; "name"]) "age" "gt" (VInt 18).

(** A builder as other code of the package would set it up: bound to a
    client, with the method GET. *)
Definition sample_get_builder : QueryBuilder :=
  set_method MethodGet (set_client (Some sample_client) sample_builder).

(** A builder whose header map is allocated as well. *)
Definition sample_ready_builder : QueryBuilder :=
  set_headers (Some {["apikey" := "fake-api-key"]}) sample_get_builder.

Definition sample_error_response : Response :=
  {| resp_IsError := true; resp_Body := "{}"; resp_String := "{}" |}.

(** A server that answers every request with an error status. *)
Definition sample_error_transport (r : Request string) : RoundTrip :=
  Answered sample_error_response.

(** A network that is down. *)
Definition sample_failing_transport (r : Request string) : RoundTrip :=
  Failed "connection refused".

(** * Properties *)

(** ** Strings and lists *)

Lemma append_nil_inv (s1 s2 : string) : s1 +:+ s2 = "" -> s1 = "" /\ s2 = "".
Proof.
  destruct s1 as [|a s1]; [done|].
  intros H. discriminate H.
Qed.

Lemma append_nonempty_l (s1 s2 : string) : s1 ≠ "" -> s1 +:+ s2 ≠ "".
Proof. intros Hs H. by apply append_nil_inv in H as [? _]. Qed.

Lemma append_nonempty_r (s1 s2 : string) : s2 ≠ "" -> s1 +:+ s2 ≠ "".
Proof. intros Hs H. by apply append_nil_inv in H as [_ ?]. Qed.

Lemma foldl_snoc {A} (l acc : list A) :
  foldl (fun acc x => acc ++ [x]) acc l = acc ++ l.
Proof.
  revert acc. induction l as [|x l IH]; intros acc; simpl.
  - by rewrite app_nil_r.
  - by rewrite IH, <- app_assoc.
Qed.

Lemma filter_nonempty_id (l : list string) :
  Forall (fun s => s ≠ "") l -> filter (fun s => s ≠ "") l = l.
Proof.
  induction 1 as [|s l Hs _ IH]; [done|].
  by rewrite filter_cons_True, IH.
Qed.

Lemma params_question {A} (params : list string) (yes : list string -> A) (no : A) :
  (if (0 <? length params)%nat then yes params else no)
  = match params with [] => no | _ => yes params end.
Proof. by destruct params. Qed.

Lemma BuildURL_refines (q : QueryBuilder) :
  Forall (fun f => f ≠ "") (filters q) -> BuildURL q = BuildURL_spec q.
Proof.
  intros Hf. unfold BuildURL, BuildURL_spec, fragments. cbv zeta.
  rewrite !filter_app, (filter_nonempty_id _ Hf), !filter_cons, filter_nil.
  clear Hf. rewrite !foldl_snoc.
  repeat case_decide; try congruence;
    simpl; rewrite <- ?app_assoc, ?app_nil_r; simpl;
    destruct (filters q); reflexivity.
Qed.

(** ** Configuration calls *)

Lemma configure_filters_nonempty (q q' : QueryBuilder) (c : Config) :
  Forall (fun f => f ≠ "") (filters q) ->
  configure q c = Return q' ->
  Forall (fun f => f ≠ "") (filters q').
Proof.
  intros Hq Hc.
  destruct c; simpl in Hc;
    try (injection Hc as <-; simpl; try assumption).
  - apply Forall_app; split; [assumption|].
    repeat constructor. apply append_nonempty_r, append_nonempty_l. discriminate.
  - apply Forall_app; split; [assumption|].
    repeat constructor. apply append_nonempty_l. discriminate.
  - apply Forall_app; split; [assumption|].
    repeat constructor. apply append_nonempty_l. discriminate.
  - unfold Header in Hc. destruct (headers q); [|discriminate].
    injection Hc as <-. assumption.
  - unfold LeftJoin, Header in Hc. simpl in Hc.
    destruct (headers q); [|discriminate].
    injection Hc as <-. assumption.
  - apply Forall_app; split; [assumption|].
    repeat constructor. apply append_nonempty_r, append_nonempty_l. discriminate.
  - unfold Or. destruct (0 <? length fs)%nat; assumption.
  - unfold And. destruct (0 <? length fs)%nat; assumption.
  - constructor.
Qed.

Lemma accumulated_filters_nonempty (q : QueryBuilder) :
  accumulated q -> Forall (fun f => f ≠ "") (filters q).
Proof.
  induction 1 as [table|c table|q c q' _ IH Hc].
  - constructor.
  - constructor.
  - exact (configure_filters_nonempty q q' c IH Hc).
Qed.

(** C8: on every accumulated builder state [BuildURL] returns ["/" + table],
    followed, only when some fragment is not empty, by ["?"] and the
    non-empty fragments joined by ["&"] in the order select, filters (as
    inserted), order, limit, offset, count; with no fragment the result is
    ["/" + table] without ["?"]. *)
Theorem BuildURL_fixed_order (q : QueryBuilder) :
  accumulated q ->
  BuildURL q = BuildURL_spec q
  /\ (filter (fun s => s ≠ "") (fragments q) = [] -> BuildURL q = "/" +:+ table q).
Proof.
  intros Hq.
  assert (BuildURL q = BuildURL_spec q) as E
    by (apply BuildURL_refines, accumulated_filters_nonempty, Hq).
  split; [exact E|].
  intros Hnone. rewrite E. unfold BuildURL_spec. by rewrite Hnone.
Qed.

(** C10: [Or] and [And] with no filter leave the builder as it is; with
    filters [f1..fn] they append the one string ["or=(f1,...,fn)"] to
    [orFilters], respectively ["and=(f1,...,fn)"] to [andFilters], and
    change no other field. *)
Theorem Or_And_frame (q : QueryBuilder) (f : string) (fs : list string) :
  Or q [] = q
  /\ And q [] = q
  /\ Or q (f :: fs)
     = set_orFilters
         (orFilters q ++ ["or=(" +:+ strings_Join (f :: fs) "," +:+ ")"]) q
  /\ And q (f :: fs)
     = set_andFilters
         (andFilters q ++ ["and=(" +:+ strings_Join (f :: fs) "," +:+ ")"]) q
  /\ length (orFilters (Or q (f :: fs))) = S (length (orFilters q))
  /\ length (andFilters (And q (f :: fs))) = S (length (andFilters q))
  /\ andFilters (Or q (f :: fs)) = andFilters q
  /\ orFilters (And q (f :: fs)) = orFilters q.
Proof.
  repeat split; try reflexivity.
  - unfold Or. simpl. rewrite length_app. simpl. lia.
  - unfold And. simpl. rewrite length_app. simpl. lia.
Qed.

(** C4: on a builder of [NewQueryBuilder] or [Client.From] the header map
    is nil, and [Header] panics on the map write. *)
Theorem Header_panics_on_new_builder (c : Client) (table key val : string) :
  headers (NewQueryBuilder table) = None
  /\ Header (NewQueryBuilder table) key val = Panic nil_map_panic
  /\ Header (From c table) key val = Panic nil_map_panic.
Proof. repeat split. Qed.

(** C5: [Client.From] sets the table and sends nothing, but leaves the
    builder's client reference nil: the result is the builder of
    [NewQueryBuilder], whatever the client. *)
Theorem From_leaves_client_nil (c : Client) (table_name : string) :
  table (From c table_name) = table_name
  /\ client (From c table_name) = None
  /\ From c table_name = NewQueryBuilder table_name.
Proof. repeat split. Qed.

(** C6: [Where] and [Filter] print a slice value with [%v], that is as
    ["[v1 v2 ... vn]"], which is never the parenthesised comma-joined
    list. *)
Theorem Where_slice_in_brackets (q : QueryBuilder) (column operator : string)
    (elems : list value) :
  filters (Where q column operator (VSlice elems))
  = filters q
      ++ [column +:+ "." +:+ operator +:+ ".["
            +:+ strings_Join (map fmt_v elems) " " +:+ "]"]
  /\ Filter q column operator (VSlice elems) = Where q column operator (VSlice elems)
  /\ column +:+ "." +:+ operator +:+ "." +:+ fmt_v (VSlice elems)
     ≠ column +:+ "." +:+ operator +:+ ".("
         +:+ strings_Join (map fmt_v elems) "," +:+ ")".
Proof.
  repeat split.
  intros H.
  do 3 apply String.app_inj in H.
  discriminate H.
Qed.

Example Where_in_filter_of_TestFilter :
  filters (Where (NewQueryBuilder "users") "id" "in"
             (VSlice [VInt 1; VInt 2; VInt 3]))
  = ["id.in.[1 2 3]"].
Proof. vm_compute. reflexivity. Qed.

(** * Further properties of the builder *)

(** ** What a chain of configuration calls cannot reach *)

Lemma configure_keeps_zero_fields (q q' : QueryBuilder) (c : Config) :
  headers q = None -> client q = None -> method q = "" ->
  configure q c = Return q' ->
  headers q' = None /\ client q' = None /\ method q' = "".
Proof.
  intros Hh Hc Hm Hq.
  destruct c; simpl in Hq;
    try (injection Hq as <-; simpl; by repeat split).
  - unfold Header in Hq. rewrite Hh in Hq. discriminate Hq.
  - unfold LeftJoin, Header in Hq. simpl in Hq. rewrite Hh in Hq. discriminate Hq.
  - unfold Or in Hq. destruct (0 <? length fs)%nat;
      injection Hq as <-; simpl; by repeat split.
  - unfold And in Hq. destruct (0 <? length fs)%nat;
      injection Hq as <-; simpl; by repeat split.
Qed.

Lemma accumulated_zero_fields (q : QueryBuilder) :
  accumulated q -> headers q = None /\ client q = None /\ method q = "".
Proof.
  induction 1 as [table|c table|q c q' _ (Hh & Hc & Hm) Hq].
  - by repeat split.
  - by repeat split.
  - exact (configure_keeps_zero_fields q q' c Hh Hc Hm Hq).
Qed.

(** X1: no chain of configuration calls allocates the header map, so on
    every accumulated builder [Header] and [LeftJoin] panic on the write
    to the nil map. *)
Theorem accumulated_Header_panics (q : QueryBuilder) (key val ft lc fc : string) :
  accumulated q ->
  Header q key val = Panic nil_map_panic
  /\ LeftJoin q ft lc fc = Panic nil_map_panic.
Proof.
  intros Hq. destruct (accumulated_zero_fields q Hq) as (Hh & _ & _).
  unfold LeftJoin, Header. simpl. by rewrite Hh.
Qed.

(** ** [BuildURL] and the configuration calls *)

(** X22: [BuildURL] after [Select] on a new builder puts the joined
    columns right after the [?], without a [select=] key; with no column,
    or only empty ones, there is no [?] at all. *)
Theorem BuildURL_Select (table_name : string) (columns : list string) :
  BuildURL (Select (NewQueryBuilder table_name) columns)
  = if decide (strings_Join columns "," = "")
    then "/" +:+ table_name
    else "/" +:+ table_name +:+ "?" +:+ strings_Join columns ",".
Proof.
  unfold BuildURL, Select. simpl.
  destruct (decide (strings_Join columns "," = "")) as [->|Hne]; [done|].
  by destruct (decide (strings_Join columns "," ≠ "")).
Qed.

(** ** Query parameters built by [execute] *)

Lemma length_append (s1 s2 : string) :
  String.length (s1 +:+ s2) = (String.length s1 + String.length s2)%nat.
Proof.
  induction s1 as [|a s1 IH]; [reflexivity|].
  change (S (String.length (s1 +:+ s2)) = S (String.length s1 + String.length s2)).
  by rewrite IH.
Qed.

Lemma prefixed_neq (p s : string) : p ≠ "" -> p +:+ s ≠ s.
Proof.
  intros Hp H. apply (f_equal String.length) in H.
  rewrite length_append in H. destruct p; [done|]. simpl in H. lia.
Qed.

(** ** Query parameters built by [execute] *)

Lemma queryParams_limit (q : QueryBuilder) :
  limitQuery q ≠ "" -> queryParams q !! "limit" = Some [limitQuery q].
Proof.
  intros Hl. unfold queryParams. cbv zeta.
  destruct (decide (offsetQuery q ≠ "")); unfold Values_Set at 1;
    rewrite ?lookup_insert_ne by done;
    destruct (decide (limitQuery q ≠ "")); try done;
    unfold Values_Set at 1; by rewrite lookup_insert_eq.
Qed.

Lemma queryParams_offset (q : QueryBuilder) :
  offsetQuery q ≠ "" -> queryParams q !! "offset" = Some [offsetQuery q].
Proof.
  intros Hl. unfold queryParams. cbv zeta.
  destruct (decide (offsetQuery q ≠ "")); [|done].
  unfold Values_Set at 1. by rewrite lookup_insert_eq.
Qed.

Lemma queryParams_order (q : QueryBuilder) :
  orderQuery q ≠ "" -> queryParams q !! "order" = Some [orderQuery q].
Proof.
  intros Hl. unfold queryParams. cbv zeta.
  destruct (decide (offsetQuery q ≠ "")); [unfold Values_Set at 1|];
    rewrite ?lookup_insert_ne by done;
    (destruct (decide (limitQuery q ≠ "")); [unfold Values_Set at 1|]);
    rewrite ?lookup_insert_ne by done;
    (destruct (decide (orderQuery q ≠ "")); [|done]);
    unfold Values_Set at 1; by rewrite lookup_insert_eq.
Qed.

(** ** The query parameters *)

Lemma lookup_Values_Set_if_ne (P : Prop) `{!Decision P} (key key' val : string)
    (qp : gmap string (list string)) :
  key ≠ key' ->
  (if decide P then Values_Set key val qp else qp) !! key' = qp !! key'.
Proof. intros Hk. case_decide; [|done]. unfold Values_Set. by rewrite lookup_insert_ne. Qed.

Lemma foldl_Values_Add (fs : list string) (qp : gmap string (list string)) :
  foldl (fun qp f => Values_Add "and" f qp) qp fs
  = match fs with
    | [] => qp
    | _ => <["and" := default [] (qp !! "and") ++ fs]> qp
    end.
Proof.
  revert qp. induction fs as [|f fs IH]; intros qp; [done|].
  simpl. rewrite IH. unfold Values_Add. destruct fs as [|f' fs]; [done|].
  rewrite lookup_insert_eq, insert_insert_eq. simpl. by rewrite <- app_assoc.
Qed.

Lemma foldl_joinSelects (js : list join) (acc : list string) :
  foldl (fun acc j => acc ++ [foreignTable j +:+ "(*)"]) acc js
  = acc ++ map (fun j => foreignTable j +:+ "(*)") js.
Proof.
  revert acc. induction js as [|j js IH]; intros acc; simpl.
  - by rewrite app_nil_r.
  - by rewrite IH, <- app_assoc.
Qed.

(** The parameters before the filters are added: only [select]. *)
Lemma queryParams_and_other (q : QueryBuilder) (key : string) :
  key ≠ "order" -> key ≠ "limit" -> key ≠ "offset" -> key ≠ "select" ->
  queryParams q !! key
  = if decide (key = "and")
    then match filters q with [] => None | fs => Some fs end
    else None.
Proof.
  intros Ho Hl Hf Hs. unfold queryParams. cbv zeta.
  rewrite !lookup_Values_Set_if_ne by done.
  rewrite foldl_Values_Add.
  set (qp := if (0 <? length (joins q))%nat then _ else _).
  assert (qp !! "and" = None /\ qp !! key = None) as [Ha Hk].
  { subst qp. destruct (0 <? length (joins q))%nat;
      repeat case_decide; unfold Values_Set;
      rewrite ?lookup_insert_ne by done; by rewrite ?lookup_empty. }
  destruct (filters q) as [|f fs]; [by case_decide|].
  case_decide as Hkey.
  - subst key. by rewrite lookup_insert_eq, Ha.
  - by rewrite lookup_insert_ne.
Qed.

Lemma queryParams_select (q : QueryBuilder) :
  queryParams q !! "select"
  = match joins q with
    | [] => if decide (selectQuery q ≠ "") then Some [selectQuery q] else None
    | js =>
        Some [(if decide (selectQuery q ≠ "") then selectQuery q else "*")
              +:+ ","
              +:+ strings_Join (map (fun j => foreignTable j +:+ "(*)") js) ","]
    end.
Proof.
  unfold queryParams. cbv zeta.
  rewrite !lookup_Values_Set_if_ne by done.
  rewrite foldl_Values_Add.
  set (qp := if (0 <? length (joins q))%nat then _ else _).
  assert (match filters q with
          | [] => qp
          | _ => <["and" := default [] (qp !! "and") ++ filters q]> qp
          end !! "select" = qp !! "select") as ->.
  { destruct (filters q); [done|]. by rewrite lookup_insert_ne. }
  subst qp. rewrite foldl_joinSelects.
  destruct (joins q) as [|j js]; simpl.
  - case_decide; unfold Values_Set; by rewrite ?lookup_insert_eq.
  - case_decide; unfold Values_Set; by rewrite lookup_insert_eq.
Qed.

(** ** Requests *)

Section Execution.
Context {V : Type}.
Variable json_checkValid : string -> option string.
Variable json_decode : string -> V -> V * option string.
Variable canonical : string -> string.
Variable range_order : gmap string string -> list (string * string).
Variable transport : Request V -> RoundTrip.

Lemma SetQueryParamsFromValues_fresh (params : gmap string (list string))
    (r : Request V) :
  req_query r = ∅ -> req_query (SetQueryParamsFromValues params r) = params.
Proof.
  intros Hr. unfold SetQueryParamsFromValues. simpl. rewrite Hr.
  apply (left_id ∅ _).
Qed.

(** The loop over the custom headers touches the header map only. *)
Lemma add_custom_headers_frame (h : option (gmap string string)) (r : Request V) :
  req_method (add_custom_headers canonical range_order h r) = req_method r
  /\ req_url (add_custom_headers canonical range_order h r) = req_url r
  /\ req_query (add_custom_headers canonical range_order h r) = req_query r
  /\ req_body (add_custom_headers canonical range_order h r) = req_body r.
Proof.
  destruct h as [m|]; simpl; [|done].
  generalize (range_order m). intros l. revert r.
  induction l as [|[k v] l IH]; intros r; simpl; [done|].
  destruct (IH (SetHeader canonical k v r)) as (-> & -> & -> & ->). done.
Qed.

(** A custom header is in the request under its canonical name, whatever
    the order of the loop, as long as no custom header of another value
    has the same canonical name. *)
Lemma add_custom_headers_lookup (m : gmap string string) (r : Request V)
    (key val : string) :
  (forall k v, (k, v) ∈ range_order m <-> m !! k = Some v) ->
  m !! key = Some val ->
  (forall k v, m !! k = Some v -> canonical k = canonical key -> v = val) ->
  req_header (add_custom_headers canonical range_order (Some m) r)
    !! canonical key = Some val.
Proof.
  intros Hrange Hkey Hone. simpl.
  assert (forall k v, (k, v) ∈ range_order m ->
                      canonical k = canonical key -> v = val) as Hl
    by (intros k v Hin; apply Hone; by apply Hrange).
  assert ((key, val) ∈ range_order m
          \/ req_header r !! canonical key = Some val) as Hin
    by (left; by apply Hrange).
  clear Hrange Hkey Hone. revert r Hin Hl.
  induction (range_order m) as [|[k v] l IH]; intros r Hin Hl; simpl.
  - destruct Hin as [Hin|Hin]; [by apply not_elem_of_nil in Hin|done].
  - apply IH.
    + destruct (decide ((key, val) ∈ l)) as [Hd|Hd]; [by left|right].
      simpl. destruct (decide (canonical k = canonical key)) as [Hk|Hk].
      * rewrite Hk, lookup_insert_eq. f_equal.
        apply (Hl k v); [apply list_elem_of_here|done].
      * rewrite lookup_insert_ne by done.
        destruct Hin as [Hin|Hin]; [|done].
        apply elem_of_cons in Hin as [[= -> ->]|Hin]; done.
    + intros k' v' Hin'. apply Hl. by apply list_elem_of_further.
Qed.

Lemma finish_sent (q : QueryBuilder) (caller data : iface V) (r : Request V) :
  out_sent (finish json_checkValid json_decode transport q caller data r) = [r].
Proof.
  unfold finish. destruct (transport r) as [msg|resp]; [done|].
  destruct (resp_IsError resp); [done|].
  destruct (bool_decide (method q = MethodGet) && negb (is_nil data)).
  { destruct (json_Unmarshal json_checkValid json_decode (resp_Body resp) data); done. }
  destruct (bool_decide (method q = MethodPost) && negb (is_nil data)).
  { destruct (json_Unmarshal json_checkValid json_decode (resp_Body resp) data); done. }
  done.
Qed.

(** [prepare] without a raw query, on a builder that has a client. *)
Lemma prepare_table (q : QueryBuilder) (data : iface V) (c : Client) :
  rawQuery q = "" -> client q = Some c ->
  exists req,
    prepare canonical range_order q data
    = Return (baseURL c +:+ "/rest/v1/" +:+ table q, q, data, req)
    /\ req_query req = queryParams q
    /\ req_body req = None.
Proof.
  intros Hraw Hc. unfold prepare. rewrite Hraw, Hc. simpl.
  rewrite Hraw, Hc. simpl.
  eexists. split; [reflexivity|].
  match goal with
  | |- context [add_custom_headers canonical range_order ?h ?r] =>
      destruct (add_custom_headers_frame h r) as (_ & _ & Hq & Hb)
  end.
  destruct (decide (rangeQuery q ≠ "")); (split; [|exact Hb]);
    by apply SetQueryParamsFromValues_fresh.
Qed.

(** [prepare] with a raw query, on a builder that has a client. *)
Lemma prepare_raw (q : QueryBuilder) (data : iface V) (c : Client) :
  rawQuery q ≠ "" -> client q = Some c ->
  prepare canonical range_order q data
  = Return (baseURL c +:+ "/rest/v1/rpc/execute_sql",
            set_method MethodPost q,
            ISqlRequest {| Query := rawQuery q |},
            add_custom_headers canonical range_order (headers q)
              ({| req_method := ""; req_url := ""; req_header := ∅;
                 req_query := ∅; req_body := None |} : Request V)).
Proof.
  intros Hraw Hc. unfold prepare. rewrite Hc.
  destruct (decide (rawQuery q ≠ "")) as [_|]; [|done]. simpl.
  rewrite Hc. simpl.
  by destruct (decide (rawQuery q = "")) as [|_].
Qed.

(** ** Terminal operations *)

Lemma execute_raw (q : QueryBuilder) (data : iface V) (c : Client) :
  rawQuery q ≠ "" -> client q = Some c ->
  execute json_checkValid json_decode canonical range_order transport q data
  = Return (set_method MethodPost q,
            finish json_checkValid json_decode transport (set_method MethodPost q) data
              (ISqlRequest {| Query := rawQuery q |})
              (Execute_request MethodPost
                 (baseURL c +:+ "/rest/v1/rpc/execute_sql")
                 (SetBody (ISqlRequest {| Query := rawQuery q |})
                    (add_custom_headers canonical range_order (headers q)
                       ({| req_method := ""; req_url := ""; req_header := ∅;
                          req_query := ∅; req_body := None |} : Request V))))).
Proof.
  intros Hraw Hc. unfold execute.
  rewrite (prepare_raw q data c Hraw Hc). reflexivity.
Qed.

Lemma execute_sent_query (q q' : QueryBuilder) (data : iface V)
    (o : Outcome V) (r : Request V) :
  rawQuery q = "" ->
  execute json_checkValid json_decode canonical range_order transport
      q data = Return (q', o) ->
  r ∈ out_sent o ->
  req_query r = queryParams q.
Proof.
  intros Hraw He Hr. unfold execute in He.
  destruct (client q) as [c|] eqn:Hc.
  - destruct (prepare_table q data c Hraw Hc) as (req & Hp & Hq & _).
    rewrite Hp in He. simpl in He.
    repeat case_decide; injection He as <- <-;
      rewrite ?finish_sent in Hr; simpl in Hr;
      try (apply list_elem_of_singleton in Hr as ->; exact Hq).
    by apply not_elem_of_nil in Hr.
  - unfold prepare in He. rewrite Hraw, Hc in He. discriminate He.
Qed.

(** With a raw query and a client in the builder, each terminal operation
    that goes through [execute] hands the HTTP client one request: a POST
    to [rpc/execute_sql] under the base URL, whose body is the
    [sqlRequest] of the raw text and which has no query parameter; the
    builder's method is left at POST. *)
Lemma raw_query_request_with_client (t : Terminal) (q : QueryBuilder)
    (data : iface V) (c : Client) :
  rawQuery q ≠ "" -> client q = Some c ->
  exists q' o r,
    terminal json_checkValid json_decode canonical range_order transport t q data
    = Return (q', o)
    /\ method q' = MethodPost
    /\ out_sent o = [r]
    /\ req_method r = MethodPost
    /\ req_url r = baseURL c +:+ "/rest/v1/rpc/execute_sql"
    /\ req_query r = ∅
    /\ req_body r = Some (ISqlRequest {| Query := rawQuery q |}).
Proof.
  intros Hraw Hc.
  destruct t; unfold terminal, Get, First, Insert, Update, Delete; cbv zeta;
    (rewrite (execute_raw _ _ c) by assumption);
    do 3 eexists; (split; [reflexivity|]);
    (split; [reflexivity|]); rewrite finish_sent;
    (split; [reflexivity|]); simpl;
    match goal with
    | |- context [add_custom_headers canonical range_order ?h ?r] =>
        destruct (add_custom_headers_frame h r) as (_ & _ & -> & _)
    end; by repeat split.
Qed.

(** C9: without a raw query, a request sent after [Limit(n)] carries
    under the key ["limit"] the whole expression ["limit=<n>"], not the
    decimal rendering of [n] alone. *)
Theorem Limit_param_keeps_prefix (q q' : QueryBuilder) (n : Z)
    (data : iface V) (o : Outcome V) (r : Request V) :
  rawQuery q = "" ->
  execute json_checkValid json_decode canonical range_order transport
      (Limit q n) data = Return (q', o) ->
  r ∈ out_sent o ->
  req_query r !! "limit" = Some ["limit=" +:+ fmt_d n]
  /\ req_query r !! "limit" ≠ Some [fmt_d n].
Proof.
  intros Hraw He Hr.
  rewrite (execute_sent_query (Limit q n) q' data o r Hraw He Hr).
  rewrite queryParams_limit by (by apply append_nonempty_l).
  split; [reflexivity|].
  intros [= H]. by apply prefixed_neq in H.
Qed.

Lemma Offset_param_keeps_prefix (q q' : QueryBuilder) (n : Z)
    (data : iface V) (o : Outcome V) (r : Request V) :
  rawQuery q = "" ->
  execute json_checkValid json_decode canonical range_order transport
      (Offset q n) data = Return (q', o) ->
  r ∈ out_sent o ->
  req_query r !! "offset" = Some ["offset=" +:+ fmt_d n].
Proof.
  intros Hraw He Hr.
  rewrite (execute_sent_query (Offset q n) q' data o r Hraw He Hr).
  by rewrite queryParams_offset by (by apply append_nonempty_l).
Qed.

Lemma Order_param_keeps_prefix (q q' : QueryBuilder) (column direction : string)
    (data : iface V) (o : Outcome V) (r : Request V) :
  rawQuery q = "" ->
  execute json_checkValid json_decode canonical range_order transport
      (Order q column direction) data = Return (q', o) ->
  r ∈ out_sent o ->
  req_query r !! "order" = Some ["order=" +:+ column +:+ "." +:+ direction].
Proof.
  intros Hraw He Hr.
  rewrite (execute_sent_query (Order q column direction) q' data o r Hraw He Hr).
  by rewrite queryParams_order by (by apply append_nonempty_l).
Qed.

(** C1: [Get] does not set the method. On the builder of
    [NewQueryBuilder] it dereferences the nil client; once a client is
    put in, it stops at the unsupported-method error, the method being
    the empty string: no request goes out and the destination keeps its
    value. *)
Theorem Get_on_new_builder (table : string) (dest : iface V) (c : Client) :
  method (NewQueryBuilder table) = ""
  /\ Get json_checkValid json_decode canonical range_order transport
      (NewQueryBuilder table) dest
     = Panic nil_deref_panic
  /\ Get json_checkValid json_decode canonical range_order transport
      (set_client (Some c) (NewQueryBuilder table)) dest
     = Return (set_client (Some c) (NewQueryBuilder table),
               {| out_err := Some (Errorf "unsupported HTTP method: ");
                  out_data := dest; out_sent := [] |}).
Proof. repeat split. Qed.

(** What [Get] does when the method field does hold [GET]. *)
Lemma Get_with_method_GET (q : QueryBuilder) (v : V) (c : Client)
    (resp : Response) :
  rawQuery q = "" -> client q = Some c -> method q = MethodGet ->
  resp_IsError resp = false ->
  (forall r, req_method r = MethodGet -> transport r = Answered resp) ->
  exists r,
    Get json_checkValid json_decode canonical range_order transport q (IPtr v)
    = Return (q, {| out_err := UnmarshalError <$> (json_decode (resp_Body resp) v).2;
                    out_data := IPtr (json_decode (resp_Body resp) v).1;
                    out_sent := [r] |})
    /\ req_method r = MethodGet
    /\ req_url r = baseURL c +:+ "/rest/v1/" +:+ table q
    /\ req_query r = queryParams q
    /\ req_body r = None.
Proof.
  intros Hraw Hc Hm He Hnet. unfold Get, execute.
  destruct (prepare_table q (IPtr v) c Hraw Hc) as (req & -> & Hq & Hb).
  simpl. case_decide; [|done].
  exists (Execute_request MethodGet (baseURL c +:+ "/rest/v1/" +:+ table q) req).
  split; [|split; [reflexivity|split; [reflexivity|split; [exact Hq|exact Hb]]]].
  unfold finish. rewrite Hnet by done. rewrite He, Hm. simpl.
  destruct (json_decode (resp_Body resp) v) as [v' e]. simpl.
  case_decide; [done|]. reflexivity.
Qed.

(** C3: [Execute] returns nil at once, sends nothing and leaves the
    destination as it is; [Get] never does the same, on any builder. *)
Theorem Execute_differs_from_Get (q : QueryBuilder) (dest : iface V) :
  Execute q dest
  = Return (q, {| out_err := None; out_data := dest; out_sent := [] |})
  /\ Get json_checkValid json_decode canonical range_order transport
      q dest ≠ Execute q dest.
Proof.
  split; [reflexivity|].
  unfold Get, Execute, execute.
  destruct (prepare canonical range_order q dest) as [msg|[[[endpoint q1] data1] req]]; simpl;
    [discriminate|].
  repeat case_decide; intros [= _ Ho]; try discriminate Ho;
    apply (f_equal out_sent) in Ho; rewrite finish_sent in Ho;
    discriminate Ho.
Qed.

(** C2: [Client.RPC] returns nil at once: no request is sent and the
    result destination keeps its value. *)
Theorem RPC_sends_nothing (c : Client) (procedure : string)
    (params : option (gmap string value)) (res : iface V) :
  RPC c procedure params res
  = Return {| out_err := None; out_data := res; out_sent := [] |}.
Proof. reflexivity. Qed.

(** ** Outcomes *)

Lemma execute_nil_client (q : QueryBuilder) (data : iface V) :
  client q = None -> execute json_checkValid json_decode canonical range_order transport
      q data = Panic nil_deref_panic.
Proof.
  intros Hc. unfold execute, prepare. rewrite Hc.
  by destruct (decide (rawQuery q ≠ "")).
Qed.

Lemma execute_Return_client (q q' : QueryBuilder) (data : iface V) (o : Outcome V) :
  execute json_checkValid json_decode canonical range_order transport
      q data = Return (q', o) ->
  exists c, client q = Some c.
Proof.
  intros He. destruct (client q) as [c|] eqn:Hc; [by exists c|].
  rewrite execute_nil_client in He by done. discriminate He.
Qed.

(** X2: a builder accumulated from [NewQueryBuilder] or [Client.From] has
    no client, so each of [Get], [First], [Insert], [Update] and [Delete]
    panics on the nil pointer before anything is sent. *)
Theorem accumulated_terminal_panics (t : Terminal) (q : QueryBuilder)
    (data : iface V) :
  accumulated q ->
  terminal json_checkValid json_decode canonical range_order transport
      t q data = Panic nil_deref_panic.
Proof.
  intros Hq. destruct (accumulated_zero_fields q Hq) as (_ & Hc & _).
  destruct t; unfold terminal, Get, First, Insert, Update, Delete; cbv zeta;
    by apply execute_nil_client.
Qed.

(** C7: a raw query does not help a builder that the source can make. On
    every builder accumulated from [NewQueryBuilder] or [Client.From],
    with the raw query set, [Get], [First], [Insert], [Update] and
    [Delete] panic on the nil client before a request exists, and
    [Execute] returns nil without sending anything: no POST to
    [rpc/execute_sql] is made. *)
Theorem raw_query_unreachable (t : Terminal) (q : QueryBuilder) (raw : string)
    (data : iface V) :
  accumulated q ->
  terminal json_checkValid json_decode canonical range_order transport t
    (Raw q raw) data
  = Panic nil_deref_panic
  /\ Execute (Raw q raw) data
     = Return (Raw q raw,
               {| out_err := None; out_data := data; out_sent := [] |}).
Proof.
  intros Hq. destruct (accumulated_zero_fields q Hq) as (_ & Hc & _).
  split; [|reflexivity].
  destruct t; unfold terminal, Get, First, Insert, Update, Delete; cbv zeta;
    by apply execute_nil_client.
Qed.

(** The request that [execute] has assembled when it reaches the
    [switch], without a raw query. *)
Lemma prepare_table_request (q : QueryBuilder) (data : iface V) (c : Client) :
  rawQuery q = "" -> client q = Some c ->
  exists req,
    prepare canonical range_order q data
    = Return (baseURL c +:+ "/rest/v1/" +:+ table q, q, data, req)
    /\ req_query req = queryParams q
    /\ req_body req = None
    /\ req_header req =
         if decide (rangeQuery q ≠ "")
         then <[canonical "Range" := rangeQuery q]>
                (req_header
                   (add_custom_headers canonical range_order (headers q)
                      ({| req_method := ""; req_url := ""; req_header := ∅;
                         req_query := ∅; req_body := None |} : Request V)))
         else req_header
                (add_custom_headers canonical range_order (headers q)
                   ({| req_method := ""; req_url := ""; req_header := ∅;
                      req_query := ∅; req_body := None |} : Request V)).
Proof.
  intros Hraw Hc. unfold prepare. rewrite Hraw, Hc. simpl.
  rewrite Hraw, Hc. simpl.
  eexists. split; [reflexivity|].
  match goal with
  | |- context [add_custom_headers canonical range_order ?h ?r] =>
      destruct (add_custom_headers_frame h r) as (_ & _ & Hq & Hb)
  end.
  destruct (decide (rangeQuery q ≠ "")); (split; [|by split]);
    by apply SetQueryParamsFromValues_fresh.
Qed.

(** What is known of a request that [execute] sent. *)
Lemma execute_sent_inv (q q' : QueryBuilder) (data : iface V) (o : Outcome V)
    (r : Request V) :
  execute json_checkValid json_decode canonical range_order transport
      q data = Return (q', o) ->
  r ∈ out_sent o ->
  exists endpoint data' req,
    prepare canonical range_order q data = Return (endpoint, q', data', req)
    /\ o = finish json_checkValid json_decode transport q' data data' r
    /\ req_method r = method q'
    /\ req_url r = endpoint
    /\ req_header r = req_header req
    /\ req_query r = req_query req
    /\ req_body r =
         if decide (method q' = MethodPost \/ method q' = MethodPatch)
         then Some data' else req_body req.
Proof.
  intros He Hr. unfold execute in He.
  destruct (prepare canonical range_order q data) as [msg|[[[endpoint q1] data1] req]];
    simpl in He; [discriminate He|].
  exists endpoint, data1, req.
  unfold MethodGet, MethodPost, MethodPatch, MethodDelete in *.
  repeat case_decide; injection He as <- <-;
    try (by apply not_elem_of_nil in Hr);
    rewrite finish_sent in Hr; apply list_elem_of_singleton in Hr as ->;
    repeat split; try done; simpl; exfalso; intuition congruence.
Qed.

Lemma execute_table_inv (q q' : QueryBuilder) (data : iface V) (o : Outcome V)
    (r : Request V) :
  rawQuery q = "" ->
  execute json_checkValid json_decode canonical range_order transport q data
  = Return (q', o) ->
  r ∈ out_sent o ->
  exists c,
    client q = Some c
    /\ q' = q
    /\ o = finish json_checkValid json_decode transport q data data r
    /\ req_method r = method q
    /\ req_url r = baseURL c +:+ "/rest/v1/" +:+ table q
    /\ req_query r = queryParams q
    /\ req_header r =
         (if decide (rangeQuery q ≠ "")
          then <[canonical "Range" := rangeQuery q]>
                 (req_header
                    (add_custom_headers canonical range_order (headers q)
                       ({| req_method := ""; req_url := ""; req_header := ∅;
                          req_query := ∅; req_body := None |} : Request V)))
          else req_header
                 (add_custom_headers canonical range_order (headers q)
                    ({| req_method := ""; req_url := ""; req_header := ∅;
                       req_query := ∅; req_body := None |} : Request V)))
    /\ req_body r =
         if decide (method q = MethodPost \/ method q = MethodPatch)
         then Some data else None.
Proof.
  intros Hraw He Hr.
  destruct (execute_Return_client q q' data o He) as [c Hc].
  destruct (execute_sent_inv q q' data o r He Hr)
    as (endpoint & data' & req & Hp & Ho & Hm & Hu & Hh & Hq & Hb).
  destruct (prepare_table_request q data c Hraw Hc)
    as (req' & Hp' & Hq' & Hb' & Hh').
  rewrite Hp' in Hp. injection Hp as <- <- <- <-.
  exists c. rewrite Hh, Hq, Hb, Hq', Hb', Hh'. by repeat split.
Qed.

(** Without a raw query, with a client and one of the four methods, the
    call returns and has handed one request to the HTTP client. *)
Lemma execute_table_sends (q : QueryBuilder) (data : iface V) (c : Client) :
  rawQuery q = "" -> client q = Some c ->
  method q = MethodGet \/ method q = MethodPost
  \/ method q = MethodPatch \/ method q = MethodDelete ->
  exists r,
    execute json_checkValid json_decode canonical range_order transport q data
    = Return (q, finish json_checkValid json_decode transport q data data r)
    /\ req_method r = method q
    /\ req_url r = baseURL c +:+ "/rest/v1/" +:+ table q
    /\ req_query r = queryParams q
    /\ req_body r =
         if decide (method q = MethodPost \/ method q = MethodPatch)
         then Some data else None.
Proof.
  intros Hraw Hc Hm. unfold execute.
  destruct (prepare_table_request q data c Hraw Hc) as (req & -> & Hq & Hb & _).
  simpl. unfold MethodGet, MethodPost, MethodPatch, MethodDelete in *.
  repeat case_decide; try (exfalso; intuition congruence);
    eexists; (split; [reflexivity|]); simpl;
    repeat split; try done; intuition congruence.
Qed.

Lemma finish_Failed (q : QueryBuilder) (caller data : iface V) (r : Request V)
    (msg : string) :
  transport r = Failed msg ->
  finish json_checkValid json_decode transport q caller data r
  = {| out_err := Some (TransportError msg); out_data := caller; out_sent := [r] |}.
Proof. intros Ht. unfold finish. by rewrite Ht. Qed.

Lemma finish_IsError (q : QueryBuilder) (caller data : iface V) (r : Request V)
    (resp : Response) :
  transport r = Answered resp -> resp_IsError resp = true ->
  finish json_checkValid json_decode transport q caller data r
  = {| out_err := Some (Errorf ("API error: " +:+ resp_String resp));
       out_data := caller; out_sent := [r] |}.
Proof. intros Ht He. unfold finish. by rewrite Ht, He. Qed.

Lemma finish_no_decode (q : QueryBuilder) (caller data : iface V) (r : Request V)
    (resp : Response) :
  transport r = Answered resp -> resp_IsError resp = false ->
  (method q ≠ MethodGet /\ method q ≠ MethodPost) \/ data = INil ->
  finish json_checkValid json_decode transport q caller data r
  = {| out_err := None; out_data := caller; out_sent := [r] |}.
Proof.
  intros Ht He Hno. unfold finish. rewrite Ht, He.
  destruct Hno as [[Hg Hp]| ->].
  - by rewrite !bool_decide_eq_false_2 by done.
  - simpl. by rewrite !andb_false_r.
Qed.

Lemma finish_decode (q : QueryBuilder) (caller data : iface V) (r : Request V)
    (resp : Response) :
  transport r = Answered resp -> resp_IsError resp = false ->
  method q = MethodGet \/ method q = MethodPost -> is_nil data = false ->
  finish json_checkValid json_decode transport q caller data r
  = {| out_err := (json_Unmarshal json_checkValid json_decode (resp_Body resp) data).2;
       out_data := if decide (rawQuery q ≠ "") then caller
                   else (json_Unmarshal json_checkValid json_decode (resp_Body resp) data).1;
       out_sent := [r] |}.
Proof.
  intros Ht He Hm Hn. unfold finish. rewrite Ht, He, Hn. simpl.
  destruct (json_Unmarshal json_checkValid json_decode (resp_Body resp) data) as [d e]. simpl.
  destruct Hm as [Hm|Hm]; rewrite Hm; simpl; reflexivity.
Qed.

(** X3: without a raw query, a method outside GET, POST, PATCH and DELETE
    (the empty string that [NewQueryBuilder] leaves, among others) makes
    [execute] return the unsupported-method error naming the method; no
    request goes out and neither the builder nor the data changes. *)
Theorem execute_unsupported_method (q : QueryBuilder) (data : iface V) (c : Client) :
  rawQuery q = "" -> client q = Some c ->
  method q ≠ MethodGet -> method q ≠ MethodPost ->
  method q ≠ MethodPatch -> method q ≠ MethodDelete ->
  execute json_checkValid json_decode canonical range_order transport q data
  = Return (q, {| out_err := Some (Errorf ("unsupported HTTP method: " +:+ method q));
                  out_data := data; out_sent := [] |}).
Proof.
  intros Hraw Hc Hg Hp Hpa Hd. unfold execute.
  destruct (prepare_table_request q data c Hraw Hc) as (req & -> & _).
  simpl. by repeat case_decide.
Qed.

(** X4: when the answer to the request has an error status, the call
    returns the error ["API error: "] followed by the response's string
    form, and the caller's data is left as it was. *)
Theorem execute_API_error (q q' : QueryBuilder) (data : iface V) (o : Outcome V)
    (r : Request V) (resp : Response) :
  execute json_checkValid json_decode canonical range_order transport
      q data = Return (q', o) ->
  r ∈ out_sent o ->
  transport r = Answered resp -> resp_IsError resp = true ->
  out_err o = Some (Errorf ("API error: " +:+ resp_String resp))
  /\ out_data o = data.
Proof.
  intros He Hr Ht Herr.
  destruct (execute_sent_inv q q' data o r He Hr) as (? & ? & ? & _ & -> & _).
  by rewrite (finish_IsError _ _ _ _ resp).
Qed.

(** X5: when the transport fails, its error is returned as it is and the
    caller's data is left as it was. *)
Theorem execute_transport_error (q q' : QueryBuilder) (data : iface V)
    (o : Outcome V) (r : Request V) (msg : string) :
  execute json_checkValid json_decode canonical range_order transport
      q data = Return (q', o) ->
  r ∈ out_sent o ->
  transport r = Failed msg ->
  out_err o = Some (TransportError msg) /\ out_data o = data.
Proof.
  intros He Hr Ht.
  destruct (execute_sent_inv q q' data o r He Hr) as (? & ? & ? & _ & -> & _).
  by rewrite (finish_Failed _ _ _ _ msg).
Qed.

(** X6: without a raw query and with a client, [Update] returns after
    handing the HTTP client one PATCH for the table endpoint, with the
    data as body and the accumulated query parameters; when the answer
    has no error status it decodes nothing: the error is nil and the
    caller's data is what it was. *)
Theorem Update_never_decodes (q : QueryBuilder) (data : iface V) (c : Client) :
  rawQuery q = "" -> client q = Some c ->
  exists q' o r,
    Update json_checkValid json_decode canonical range_order transport
        q data = Return (q', o)
    /\ out_sent o = [r]
    /\ req_method r = MethodPatch
    /\ req_url r = baseURL c +:+ "/rest/v1/" +:+ table q
    /\ req_body r = Some data
    /\ req_query r = queryParams q
    /\ forall resp,
         transport r = Answered resp -> resp_IsError resp = false ->
         out_err o = None /\ out_data o = data.
Proof.
  intros Hraw Hc. unfold Update. cbv zeta.
  destruct (execute_table_sends (set_method MethodPatch q) data c Hraw Hc)
    as (r & -> & Hm & Hu & Hq & Hb); [by right; right; left|].
  do 3 eexists. split; [reflexivity|]. rewrite finish_sent.
  do 5 (split; [done|]).
  intros resp Ht Hok.
  by rewrite (finish_no_decode _ _ _ _ resp) by (try done; by left).
Qed.

(** X7: without a raw query and with a client, [Delete] returns after
    handing the HTTP client one DELETE for the table endpoint, without a
    body, with the accumulated query parameters; when the answer has no
    error status the result is nil. *)
Theorem Delete_sends_no_body (q : QueryBuilder) (c : Client) :
  rawQuery q = "" -> client q = Some c ->
  exists q' o r,
    Delete json_checkValid json_decode canonical range_order transport q = Return (q', o)
    /\ out_sent o = [r]
    /\ req_method r = MethodDelete
    /\ req_url r = baseURL c +:+ "/rest/v1/" +:+ table q
    /\ req_body r = None
    /\ req_query r = queryParams q
    /\ forall resp,
         transport r = Answered resp -> resp_IsError resp = false ->
         out_err o = None.
Proof.
  intros Hraw Hc. unfold Delete. cbv zeta.
  destruct (execute_table_sends (set_method MethodDelete q) INil c Hraw Hc)
    as (r & -> & Hm & Hu & Hq & Hb); [by right; right; right|].
  do 3 eexists. split; [reflexivity|]. rewrite finish_sent.
  do 5 (split; [done|]).
  intros resp Ht Hok.
  by rewrite (finish_no_decode _ _ _ _ resp) by (try done; by left).
Qed.

(** X8: without a raw query and with a client, [Insert] of a value that
    is not a pointer (what [TestInsert] passes) returns after handing the
    HTTP client one POST with that value as body; when the answer has no
    error status the result is still an error, from [json.Unmarshal]: the
    syntax error when the body is not valid JSON, the invalid-destination
    error otherwise. The data is what it was. *)
Theorem Insert_value_not_decoded (q : QueryBuilder) (v : V) (c : Client) :
  rawQuery q = "" -> client q = Some c ->
  exists q' o r,
    Insert json_checkValid json_decode canonical range_order transport
        q (IVal v) = Return (q', o)
    /\ out_sent o = [r]
    /\ req_method r = MethodPost
    /\ req_url r = baseURL c +:+ "/rest/v1/" +:+ table q
    /\ req_body r = Some (IVal v)
    /\ forall resp,
         transport r = Answered resp -> resp_IsError resp = false ->
         out_err o
         = Some (match json_checkValid (resp_Body resp) with
                 | Some msg => SyntaxError msg
                 | None => InvalidUnmarshalError
                 end)
         /\ out_data o = IVal v.
Proof.
  intros Hraw Hc. unfold Insert. cbv zeta.
  destruct (execute_table_sends (set_method MethodPost q) (IVal v) c Hraw Hc)
    as (r & -> & Hm & Hu & Hq & Hb); [by right; left|].
  do 3 eexists. split; [reflexivity|]. rewrite finish_sent.
  do 4 (split; [done|]).
  intros resp Ht Hok.
  rewrite (finish_decode _ _ _ _ resp) by (try done; by right);
    simpl; destruct (json_checkValid (resp_Body resp)); simpl;
    by destruct (decide (rawQuery q ≠ "")).
Qed.

(** X9: without a raw query and with a client, [Insert] of a pointer
    returns after handing the HTTP client one POST with it as body and the
    accumulated query parameters; when the answer has no error status the
    response body is decoded into the pointed variable, and the decoder's
    error, if any, is the result. *)
Theorem Insert_pointer_decoded (q : QueryBuilder) (v : V) (c : Client) :
  rawQuery q = "" -> client q = Some c ->
  exists q' o r,
    Insert json_checkValid json_decode canonical range_order transport
        q (IPtr v) = Return (q', o)
    /\ out_sent o = [r]
    /\ req_method r = MethodPost
    /\ req_url r = baseURL c +:+ "/rest/v1/" +:+ table q
    /\ req_body r = Some (IPtr v)
    /\ req_query r = queryParams q
    /\ forall resp,
         transport r = Answered resp -> resp_IsError resp = false ->
         out_err o = UnmarshalError <$> (json_decode (resp_Body resp) v).2
         /\ out_data o = IPtr (json_decode (resp_Body resp) v).1.
Proof.
  intros Hraw Hc. unfold Insert. cbv zeta.
  destruct (execute_table_sends (set_method MethodPost q) (IPtr v) c Hraw Hc)
    as (r & -> & Hm & Hu & Hq & Hb); [by right; left|].
  do 3 eexists. split; [reflexivity|]. rewrite finish_sent.
  do 5 (split; [done|]).
  intros resp Ht Hok.
  rewrite (finish_decode _ _ _ _ resp) by (try done; by right);
    simpl; destruct (json_decode (resp_Body resp) v) as [v' e]; simpl;
    by destruct (decide (rawQuery q ≠ "")).
Qed.

(** X10: with a raw query and a client, each of [Get], [First], [Insert],
    [Update] and [Delete] returns after handing the HTTP client one
    request, and an answer without error status never reaches the caller's
    destination: [execute] has replaced its data by the [sqlRequest]
    value, which is not a pointer, so the result is an error of
    [json.Unmarshal] (the syntax error when the body is not valid JSON,
    the invalid-destination error otherwise) and the caller's data is what
    it was. *)
Theorem raw_query_never_decodes (t : Terminal) (q : QueryBuilder)
    (data : iface V) (c : Client) :
  rawQuery q ≠ "" -> client q = Some c ->
  exists q' o r,
    terminal json_checkValid json_decode canonical range_order transport
        t q data = Return (q', o)
    /\ out_sent o = [r]
    /\ forall resp,
         transport r = Answered resp -> resp_IsError resp = false ->
         out_err o
         = Some (match json_checkValid (resp_Body resp) with
                 | Some msg => SyntaxError msg
                 | None => InvalidUnmarshalError
                 end)
         /\ out_data o = match t with TDelete => INil | _ => data end.
Proof.
  intros Hraw Hc.
  destruct t; unfold terminal, Get, First, Insert, Update, Delete; cbv zeta;
    (rewrite (execute_raw _ _ c) by assumption);
    do 3 eexists; (split; [reflexivity|]); rewrite finish_sent;
    (split; [reflexivity|]);
    intros resp Ht Hok;
    (rewrite (finish_decode _ _ _ _ resp) by (try done; by right));
    simpl; destruct (json_checkValid (resp_Body resp)); simpl;
    (destruct (decide (rawQuery q ≠ "")); [|done]); by split.
Qed.

(** X11: [First] overrides any limit set before: every request it sends
    carries ["limit=1"] under the key ["limit"], and the builder keeps
    that limit afterwards. *)
Theorem First_limit_one (q q' : QueryBuilder) (data : iface V)
    (o : Outcome V) (r : Request V) :
  rawQuery q = "" ->
  First json_checkValid json_decode canonical range_order transport
      q data = Return (q', o) ->
  r ∈ out_sent o ->
  req_query r !! "limit" = Some ["limit=1"]
  /\ q' = Limit q 1.
Proof.
  intros Hraw He Hr. unfold First in He. cbv zeta in He.
  destruct (execute_table_inv (Limit q 1) _ _ _ _ Hraw He Hr)
    as (c & Hc & -> & _ & _ & _ & -> & _).
  split; [|reflexivity].
  by rewrite queryParams_limit.
Qed.

(** X12: [execute] sends at most one request, and changes nothing of the
    builder but the method, which a raw query sets to POST. *)
Theorem execute_one_request (q q' : QueryBuilder) (data : iface V)
    (o : Outcome V) :
  execute json_checkValid json_decode canonical range_order transport
      q data = Return (q', o) ->
  (length (out_sent o) <= 1)%nat
  /\ q' = (if decide (rawQuery q ≠ "") then set_method MethodPost q else q).
Proof.
  intros He. destruct (execute_Return_client q q' data o He) as [c Hc].
  unfold execute in He.
  destruct (decide (rawQuery q ≠ "")) as [Hraw|Hraw].
  - rewrite (prepare_raw q data c Hraw Hc) in He. simpl in He.
    injection He as <- <-. rewrite finish_sent. simpl. split; [lia|done].
  - assert (rawQuery q = "") as Hraw' by (by destruct (decide (rawQuery q = ""))).
    destruct (prepare_table_request q data c Hraw' Hc) as (req & Hp & _).
    rewrite Hp in He. simpl in He.
    repeat case_decide; injection He as <- <-;
      rewrite ?finish_sent; simpl; (split; [lia|done]).
Qed.

(** X13: without a raw query, a range set by [Range] is in every request
    as the header [Range], stored under the canonical form of that name,
    where it replaces any custom header with the same canonical name; it
    is not a query parameter. *)
Theorem Range_is_a_header (q q' : QueryBuilder) (data : iface V)
    (o : Outcome V) (r : Request V) :
  rawQuery q = "" -> rangeQuery q ≠ "" ->
  execute json_checkValid json_decode canonical range_order transport
      q data = Return (q', o) ->
  r ∈ out_sent o ->
  req_header r !! canonical "Range" = Some (rangeQuery q)
  /\ req_query r !! "range" = None.
Proof.
  intros Hraw Hrange He Hr.
  destruct (execute_table_inv _ _ _ _ _ Hraw He Hr)
    as (c & Hc & _ & _ & _ & _ & -> & -> & _).
  destruct (decide (rangeQuery q ≠ "")); [|done].
  split; [by rewrite lookup_insert_eq|].
  by rewrite queryParams_and_other.
Qed.

(** X14: data that is the untyped nil is never decoded into: on a success
    answer the call returns nil. *)
Theorem nil_data_not_decoded (q q' : QueryBuilder) (o : Outcome V)
    (r : Request V) (resp : Response) :
  rawQuery q = "" ->
  execute json_checkValid json_decode canonical range_order transport
      q INil = Return (q', o) ->
  r ∈ out_sent o ->
  transport r = Answered resp -> resp_IsError resp = false ->
  out_err o = None /\ out_data o = INil.
Proof.
  intros Hraw He Hr Ht Hok.
  destruct (execute_table_inv _ _ _ _ _ Hraw He Hr) as (c & _ & _ & -> & _).
  rewrite (finish_no_decode _ _ _ _ resp) by (try done; by right).
  by split.
Qed.

(** ** Serialisation *)

(** X15: without a raw query the [select] parameter is the select
    expression when there is no join; with joins it is the select
    expression, or ["*"] when that is empty, followed by the foreign table
    with a starred column list for each join, in the order of the calls. Of a join only the foreign
    table is sent; its columns and operator are not. *)
Theorem select_param (q q' : QueryBuilder) (data : iface V) (o : Outcome V)
    (r : Request V) :
  rawQuery q = "" ->
  execute json_checkValid json_decode canonical range_order transport
      q data = Return (q', o) ->
  r ∈ out_sent o ->
  req_query r !! "select"
  = match joins q with
    | [] => if decide (selectQuery q ≠ "") then Some [selectQuery q] else None
    | js =>
        Some [(if decide (selectQuery q ≠ "") then selectQuery q else "*")
              +:+ ","
              +:+ strings_Join (map (fun j => foreignTable j +:+ "(*)") js) ","]
    end.
Proof.
  intros Hraw He Hr.
  rewrite (execute_sent_query q q' data o r Hraw He Hr).
  apply queryParams_select.
Qed.

(** X16: without a raw query the plain filters are sent as the values of
    the repeated parameter ["and"], all of them and in the order of the
    calls; with no filter the parameter is absent. *)
Theorem filters_sent_as_and (q q' : QueryBuilder) (data : iface V)
    (o : Outcome V) (r : Request V) :
  rawQuery q = "" ->
  execute json_checkValid json_decode canonical range_order transport
      q data = Return (q', o) ->
  r ∈ out_sent o ->
  req_query r !! "and" = match filters q with [] => None | fs => Some fs end.
Proof.
  intros Hraw He Hr.
  rewrite (execute_sent_query q q' data o r Hraw He Hr).
  by rewrite queryParams_and_other.
Qed.

(** X17: a request never has a query parameter other than [select],
    [and], [order], [limit] and [offset]: the count mode, the range, the
    single-result flag and the filters of [Or], [And] and [Not] are not
    sent as parameters. *)
Theorem no_other_query_key (q q' : QueryBuilder) (data : iface V)
    (o : Outcome V) (r : Request V) (key : string) :
  execute json_checkValid json_decode canonical range_order transport
      q data = Return (q', o) ->
  r ∈ out_sent o ->
  key ∉ ["select"; "and"; "order"; "limit"; "offset"] ->
  req_query r !! key = None.
Proof.
  intros He Hr Hk.
  destruct (execute_Return_client q q' data o He) as [c Hc].
  destruct (decide (rawQuery q = "")) as [Hraw|Hraw].
  - rewrite (execute_sent_query q q' data o r Hraw He Hr).
    rewrite queryParams_and_other by set_solver.
    case_decide; [set_solver|done].
  - destruct (execute_sent_inv q q' data o r He Hr)
      as (endpoint & data' & req & Hp & _ & _ & _ & _ & -> & _).
    rewrite (prepare_raw q data c Hraw Hc) in Hp. injection Hp as _ _ _ <-.
    match goal with
    | |- context [add_custom_headers canonical range_order ?h ?r0] =>
        destruct (add_custom_headers_frame h r0) as (_ & _ & -> & _)
    end.
    done.
Qed.

(** X18: a custom header is in every request, under the canonical form
    of its name, with or without a raw query and whatever the order in
    which the header map is visited, provided that no custom header of
    another value has the same canonical name and that, when a range is
    sent, the name is not that of the [Range] header. *)
Theorem custom_headers_sent (q q' : QueryBuilder) (data : iface V)
    (o : Outcome V) (r : Request V) (m : gmap string string)
    (key val : string) :
  (forall k v, (k, v) ∈ range_order m <-> m !! k = Some v) ->
  headers q = Some m ->
  m !! key = Some val ->
  (forall k v, m !! k = Some v -> canonical k = canonical key -> v = val) ->
  (rawQuery q = "" -> rangeQuery q ≠ "" -> canonical key ≠ canonical "Range") ->
  execute json_checkValid json_decode canonical range_order transport
      q data = Return (q', o) ->
  r ∈ out_sent o ->
  req_header r !! canonical key = Some val.
Proof.
  intros Hrange Hh Hkey Hone Hnot He Hr.
  destruct (execute_Return_client q q' data o He) as [c Hc].
  destruct (decide (rawQuery q = "")) as [Hraw|Hraw].
  - destruct (execute_table_inv q q' data o r Hraw He Hr)
      as (c' & _ & _ & _ & _ & _ & _ & -> & _).
    rewrite Hh. case_decide.
    + rewrite lookup_insert_ne by (intros Heq; by apply Hnot).
      by apply add_custom_headers_lookup.
    + by apply add_custom_headers_lookup.
  - destruct (execute_sent_inv q q' data o r He Hr)
      as (endpoint & data' & req & Hp & _ & _ & _ & -> & _).
    rewrite (prepare_raw q data c Hraw Hc) in Hp. injection Hp as _ _ _ <-.
    rewrite Hh. by apply add_custom_headers_lookup.
Qed.

(** X19: on a builder whose header map is allocated, [LeftJoin] returns:
    the join is appended with the operator [eq], and [Prefer:
    missing=null] is in the header map. Without a raw query, a request
    handed out afterwards has the foreign table, with a starred column
    list, last in its [select] parameter. *)
Theorem LeftJoin_request (q : QueryBuilder) (m : gmap string string)
    (ft lc fc : string) :
  headers q = Some m ->
  exists q1,
    LeftJoin q ft lc fc = Return q1
    /\ headers q1 = Some (<["Prefer" := "missing=null"]> m)
    /\ joins q1
       = joins q ++ [{| foreignTable := ft; localColumn := lc;
                        operator := "eq"; foreignColumn := fc |}]
    /\ forall (data : iface V) q' o r,
         rawQuery q = "" ->
         execute json_checkValid json_decode canonical range_order transport
             q1 data = Return (q', o) ->
         r ∈ out_sent o ->
         req_query r !! "select"
         = Some [(if decide (selectQuery q ≠ "") then selectQuery q else "*")
                 +:+ ","
                 +:+ strings_Join
                       (map (fun j => foreignTable j +:+ "(*)") (joins q)
                          ++ [ft +:+ "(*)"]) ","].
Proof.
  intros Hh. unfold LeftJoin, Header. simpl. rewrite Hh.
  eexists. split; [reflexivity|]. split; [reflexivity|]. split; [reflexivity|].
  intros data q' o r Hraw He Hr.
  rewrite (execute_sent_query
             (set_headers (Some (<["Prefer" := "missing=null"]> m))
                (Join q ft lc "eq" fc)) q' data o r Hraw He Hr),
    queryParams_select.
  unfold set_headers, Join, set_joins. cbn [joins selectQuery].
  destruct (joins q) as [|j js]; simpl; by rewrite ?map_app.
Qed.

(** X20: with the method GET, [Get] on a pointer sends one GET without a
    body, carrying the accumulated parameters, and on a success answer
    decodes the response body into the pointed variable; the decoder's
    error, if any, is the result. *)
Theorem Get_pointer_decoded (q q' : QueryBuilder) (v : V) (o : Outcome V)
    (r : Request V) (resp : Response) :
  rawQuery q = "" -> method q = MethodGet ->
  Get json_checkValid json_decode canonical range_order transport
      q (IPtr v) = Return (q', o) ->
  r ∈ out_sent o ->
  transport r = Answered resp -> resp_IsError resp = false ->
  out_err o = UnmarshalError <$> (json_decode (resp_Body resp) v).2
  /\ out_data o = IPtr (json_decode (resp_Body resp) v).1
  /\ req_method r = MethodGet /\ req_body r = None
  /\ req_query r = queryParams q.
Proof.
  intros Hraw Hm He Hr Ht Hok. unfold Get in He.
  destruct (execute_table_inv q q' _ o r Hraw He Hr)
    as (c & Hc & _ & -> & Hm' & Hu & Hq & _ & Hb).
  rewrite (finish_decode _ _ _ _ resp) by (try done; by left).
  rewrite Hm in Hb, Hm'. simpl in *.
  destruct (json_decode (resp_Body resp) v) as [v' e]. simpl.
  destruct (decide (rawQuery q ≠ "")); by repeat split.
Qed.

(** X21: [ForeignTable] returns a new builder for [table.foreignTable]
    that takes over nothing of the parent: its URL has no parameter, and
    as it has no client and no header map, [Get], [First], [Insert],
    [Update] and [Delete] panic on it and so does [Header], whatever the
    parent held; [Execute] returns nil on it and sends nothing. *)
Theorem ForeignTable_fresh (t : Terminal) (q : QueryBuilder)
    (name key val : string) (data : iface V) :
  BuildURL (ForeignTable q name) = "/" +:+ table q +:+ "." +:+ name
  /\ terminal json_checkValid json_decode canonical range_order transport
      t (ForeignTable q name) data
     = Panic nil_deref_panic
  /\ Execute (ForeignTable q name) data
     = Return (ForeignTable q name,
               {| out_err := None; out_data := data; out_sent := [] |})
  /\ Header (ForeignTable q name) key val = Panic nil_map_panic.
Proof.
  split; [reflexivity|]. split; [|by split].
  destruct t; reflexivity.
Qed.

End Execution.

(** ** The theorems at sample inputs *)

Lemma sample_builder_accumulated : accumulated sample_builder.
Proof.
  apply (acc_configure (Select (From sample_client "users") ["id"; "name"])
           (CFilter "age" "gt" (VInt 18))); [|reflexivity].
  apply (acc_configure (From sample_client "users") (CSelect ["id"; "name"]));
    [|reflexivity].
  apply acc_From.
Defined.

Ltac sent_request He r Hr :=
  match type of He with
  | _ = Return (_, ?o) =>
      assert (exists r, r ∈ out_sent o) as [r Hr];
      [vm_compute in He; injection He as _ <-; eexists; constructor|]
  end.

Lemma raw_query_unreachable_witness :
  accumulated sample_builder
  /\ terminal
      sample_checkValid sample_decode sample_canonical sample_range_order sample_transport
      TGet
       (Raw sample_builder "select 1") (IPtr "")
     = Panic nil_deref_panic
  /\ Execute (Raw sample_builder "select 1") (IPtr "")
     = Return (Raw sample_builder "select 1",
               {| out_err := None; out_data := IPtr ""; out_sent := [] |}).
Proof.
  split; [exact sample_builder_accumulated|].
  apply (raw_query_unreachable
      sample_checkValid sample_decode sample_canonical sample_range_order sample_transport
      TGet
           sample_builder "select 1" (IPtr "") sample_builder_accumulated).
Defined.

Lemma Update_never_decodes_witness :
  rawQuery sample_get_builder = "" /\ client sample_get_builder = Some sample_client
  /\ exists q' o r,
       Update
           sample_checkValid sample_decode sample_canonical sample_range_order sample_transport
           sample_get_builder (IPtr "old") = Return (q', o)
       /\ out_sent o = [r]
       /\ req_method r = MethodPatch
       /\ req_url r = baseURL sample_client +:+ "/rest/v1/" +:+ table sample_get_builder
       /\ req_body r = Some (IPtr "old")
       /\ req_query r = queryParams sample_get_builder
       /\ forall resp,
            sample_transport r = Answered resp -> resp_IsError resp = false ->
            out_err o = None /\ out_data o = IPtr "old".
Proof.
  split; [reflexivity|]. split; [reflexivity|].
  apply (Update_never_decodes
      sample_checkValid sample_decode sample_canonical sample_range_order sample_transport
      sample_get_builder (IPtr "old") sample_client);
    reflexivity.
Defined.

Lemma Delete_sends_no_body_witness :
  rawQuery sample_get_builder = "" /\ client sample_get_builder = Some sample_client
  /\ exists q' o r,
       Delete
           sample_checkValid sample_decode sample_canonical sample_range_order sample_transport
           sample_get_builder = Return (q', o)
       /\ out_sent o = [r]
       /\ req_method r = MethodDelete
       /\ req_url r = baseURL sample_client +:+ "/rest/v1/" +:+ table sample_get_builder
       /\ req_body r = None
       /\ req_query r = queryParams sample_get_builder
       /\ forall resp,
            sample_transport r = Answered resp -> resp_IsError resp = false ->
            out_err o = None.
Proof.
  split; [reflexivity|]. split; [reflexivity|].
  apply (Delete_sends_no_body
      sample_checkValid sample_decode sample_canonical sample_range_order sample_transport
      sample_get_builder sample_client);
    reflexivity.
Defined.

Lemma Insert_value_not_decoded_witness :
  rawQuery sample_get_builder = "" /\ client sample_get_builder = Some sample_client
  /\ exists q' o r,
       Insert
           sample_checkValid sample_decode sample_canonical sample_range_order sample_transport
           sample_get_builder (IVal "Alice") = Return (q', o)
       /\ out_sent o = [r]
       /\ req_method r = MethodPost
       /\ req_url r = baseURL sample_client +:+ "/rest/v1/" +:+ table sample_get_builder
       /\ req_body r = Some (IVal "Alice")
       /\ forall resp,
            sample_transport r = Answered resp -> resp_IsError resp = false ->
            out_err o
            = Some (match sample_checkValid (resp_Body resp) with
                    | Some msg => SyntaxError msg
                    | None => InvalidUnmarshalError
                    end)
            /\ out_data o = IVal "Alice".
Proof.
  split; [reflexivity|]. split; [reflexivity|].
  apply (Insert_value_not_decoded
      sample_checkValid sample_decode sample_canonical sample_range_order sample_transport
      sample_get_builder "Alice" sample_client);
    reflexivity.
Defined.

Lemma Insert_pointer_decoded_witness :
  rawQuery sample_get_builder = "" /\ client sample_get_builder = Some sample_client
  /\ exists q' o r,
       Insert
           sample_checkValid sample_decode sample_canonical sample_range_order sample_transport
           sample_get_builder (IPtr "Alice") = Return (q', o)
       /\ out_sent o = [r]
       /\ req_method r = MethodPost
       /\ req_url r = baseURL sample_client +:+ "/rest/v1/" +:+ table sample_get_builder
       /\ req_body r = Some (IPtr "Alice")
       /\ req_query r = queryParams sample_get_builder
       /\ forall resp,
            sample_transport r = Answered resp -> resp_IsError resp = false ->
            out_err o = UnmarshalError <$> (sample_decode (resp_Body resp) "Alice").2
            /\ out_data o = IPtr (sample_decode (resp_Body resp) "Alice").1.
Proof.
  split; [reflexivity|]. split; [reflexivity|].
  apply (Insert_pointer_decoded
      sample_checkValid sample_decode sample_canonical sample_range_order sample_transport
      sample_get_builder "Alice" sample_client);
    reflexivity.
Defined.

Lemma raw_query_never_decodes_witness :
  rawQuery (Raw sample_get_builder "select 1") ≠ ""
  /\ client (Raw sample_get_builder "select 1") = Some sample_client
  /\ exists q' o r,
       terminal
           sample_checkValid sample_decode sample_canonical sample_range_order sample_transport
           TGet
         (Raw sample_get_builder "select 1") (IPtr "old") = Return (q', o)
       /\ out_sent o = [r]
       /\ forall resp,
            sample_transport r = Answered resp -> resp_IsError resp = false ->
            out_err o
            = Some (match sample_checkValid (resp_Body resp) with
                    | Some msg => SyntaxError msg
                    | None => InvalidUnmarshalError
                    end)
            /\ out_data o = IPtr "old".
Proof.
  split; [discriminate|]. split; [reflexivity|].
  apply (raw_query_never_decodes
      sample_checkValid sample_decode sample_canonical sample_range_order sample_transport
      TGet
           (Raw sample_get_builder "select 1") (IPtr "old") sample_client);
    [discriminate|reflexivity].
Defined.

Lemma Range_is_a_header_witness :
  exists q' o r,
    execute
        sample_checkValid sample_decode sample_canonical sample_range_order sample_transport
      (Range (set_headers (Some {["range" := "custom"]}) sample_get_builder) 0 9)
      (IPtr "")
    = Return (q', o)
    /\ r ∈ out_sent o
    /\ req_header r !! sample_canonical "Range"
       = Some ("range=" +:+ fmt_d 0 +:+ "-" +:+ fmt_d 9)
    /\ req_query r !! "range" = None.
Proof.
  destruct (execute
      sample_checkValid sample_decode sample_canonical sample_range_order sample_transport
              (Range (set_headers (Some {["range" := "custom"]})
                        sample_get_builder) 0 9) (IPtr ""))
    as [msg|[q' o]] eqn:He; [discriminate He|].
  sent_request He r Hr.
  exists q', o, r. split; [reflexivity|]. split; [exact Hr|].
  apply (Range_is_a_header
      sample_checkValid sample_decode sample_canonical sample_range_order sample_transport
           (Range (set_headers (Some {["range" := "custom"]})
                     sample_get_builder) 0 9) q' (IPtr "") o r);
    (reflexivity || assumption || discriminate).
Defined.

Lemma custom_headers_sent_witness :
  (forall k v, (k, v) ∈ sample_range_order {["apikey" := "fake-api-key"]}
               <-> ({["apikey" := "fake-api-key"]} : gmap string string) !! k = Some v)
  /\ exists q' o r,
       execute
           sample_checkValid sample_decode sample_canonical sample_range_order sample_transport
         (Raw sample_ready_builder "select 1") (IPtr "")
       = Return (q', o)
       /\ r ∈ out_sent o
       /\ req_header r !! sample_canonical "apikey" = Some "fake-api-key".
Proof.
  assert (forall k v, (k, v) ∈ sample_range_order {["apikey" := "fake-api-key"]}
                      <-> ({["apikey" := "fake-api-key"]} : gmap string string) !! k
                          = Some v) as Hrange
    by (intros k v; apply elem_of_map_to_list).
  split; [exact Hrange|].
  destruct (execute
      sample_checkValid sample_decode sample_canonical sample_range_order sample_transport
              (Raw sample_ready_builder "select 1") (IPtr ""))
    as [msg|[q' o]] eqn:He; [discriminate He|].
  sent_request He r Hr.
  exists q', o, r. split; [reflexivity|]. split; [exact Hr|].
  apply (custom_headers_sent
      sample_checkValid sample_decode sample_canonical sample_range_order sample_transport
           (Raw sample_ready_builder "select 1") q' (IPtr "") o r
           {["apikey" := "fake-api-key"]} "apikey" "fake-api-key" Hrange).
  - reflexivity.
  - reflexivity.
  - intros k v Hk _. apply lookup_singleton_Some in Hk as [_ <-]. reflexivity.
  - intros Hraw. discriminate Hraw.
  - exact He.
  - exact Hr.
Defined.

Lemma LeftJoin_request_witness :
  headers sample_ready_builder = Some {["apikey" := "fake-api-key"]}
  /\ exists q1,
       LeftJoin sample_ready_builder "posts" "id" "user_id" = Return q1
       /\ headers q1
          = Some (<["Prefer" := "missing=null"]> {["apikey" := "fake-api-key"]})
       /\ joins q1
          = joins sample_ready_builder
              ++ [{| foreignTable := "posts"; localColumn := "id";
                     operator := "eq"; foreignColumn := "user_id" |}]
       /\ forall (data : iface string) q' o r,
            rawQuery sample_ready_builder = "" ->
            execute
                sample_checkValid sample_decode sample_canonical sample_range_order sample_transport
                q1 data = Return (q', o) ->
            r ∈ out_sent o ->
            req_query r !! "select"
            = Some [(if decide (selectQuery sample_ready_builder ≠ "")
                     then selectQuery sample_ready_builder else "*")
                    +:+ ","
                    +:+ strings_Join
                          (map (fun j => foreignTable j +:+ "(*)")
                               (joins sample_ready_builder)
                             ++ ["posts" +:+ "(*)"]) ","].
Proof.
  split; [reflexivity|].
  apply (LeftJoin_request
      sample_checkValid sample_decode sample_canonical sample_range_order sample_transport
      sample_ready_builder
           {["apikey" := "fake-api-key"]} "posts" "id" "user_id").
  reflexivity.
Defined.

Lemma BuildURL_fixed_order_witness :
  accumulated sample_builder
  /\ BuildURL sample_builder = BuildURL_spec sample_builder
  /\ (filter (fun s => s ≠ "") (fragments sample_builder) = [] ->
      BuildURL sample_builder = "/" +:+ table sample_builder).
Proof.
  assert (accumulated sample_builder) as Hacc.
  { apply (acc_configure (Select (From sample_client "users") ["id"; "name"])
             (CFilter "age" "gt" (VInt 18))); [|reflexivity].
    apply (acc_configure (From sample_client "users") (CSelect ["id"; "name"]));
      [|reflexivity].
    apply acc_From. }
  split; [exact Hacc|].
  apply (BuildURL_fixed_order sample_builder Hacc).
Defined.

Lemma Limit_param_keeps_prefix_witness :
  exists q' o r,
    execute
        sample_checkValid sample_decode sample_canonical sample_range_order sample_transport
        (Limit sample_get_builder 10) (IPtr "")
    = Return (q', o)
    /\ r ∈ out_sent o
    /\ req_query r !! "limit" = Some ["limit=" +:+ fmt_d 10]
    /\ req_query r !! "limit" ≠ Some [fmt_d 10].
Proof.
  destruct (execute
      sample_checkValid sample_decode sample_canonical sample_range_order sample_transport
      (Limit sample_get_builder 10)
              (IPtr "")) as [msg|[q' o]] eqn:He; [discriminate He|].
  assert (exists r, r ∈ out_sent o) as [r Hr].
  { vm_compute in He. injection He as _ <-. eexists. constructor. }
  exists q', o, r. split; [reflexivity|]. split; [exact Hr|].
  apply (Limit_param_keeps_prefix
      sample_checkValid sample_decode sample_canonical sample_range_order sample_transport
           sample_get_builder q' 10 (IPtr "") o r); [reflexivity|exact He|exact Hr].
Defined.

Lemma accumulated_Header_panics_witness :
  accumulated sample_builder
  /\ Header sample_builder "Prefer" "missing=null" = Panic nil_map_panic
  /\ LeftJoin sample_builder "posts" "id" "user_id" = Panic nil_map_panic.
Proof.
  split; [exact sample_builder_accumulated|].
  apply (accumulated_Header_panics sample_builder "Prefer" "missing=null"
           "posts" "id" "user_id" sample_builder_accumulated).
Defined.

Lemma accumulated_terminal_panics_witness :
  accumulated sample_builder
  /\ terminal
      sample_checkValid sample_decode sample_canonical sample_range_order sample_transport
      TInsert sample_builder (IVal "Alice")
     = Panic nil_deref_panic.
Proof.
  split; [exact sample_builder_accumulated|].
  apply (accumulated_terminal_panics
      sample_checkValid sample_decode sample_canonical sample_range_order sample_transport
      TInsert
           sample_builder (IVal "Alice") sample_builder_accumulated).
Defined.

Lemma execute_unsupported_method_witness :
  execute
      sample_checkValid sample_decode sample_canonical sample_range_order sample_transport
    (set_client (Some sample_client) sample_builder) (IPtr "")
  = Return (set_client (Some sample_client) sample_builder,
            {| out_err :=
                 Some (Errorf ("unsupported HTTP method: "
                               +:+ method (set_client (Some sample_client) sample_builder)));
               out_data := IPtr ""; out_sent := [] |}).
Proof.
  apply (execute_unsupported_method
      sample_checkValid sample_decode sample_canonical sample_range_order sample_transport
           (set_client (Some sample_client) sample_builder) (IPtr "") sample_client);
    (reflexivity || discriminate).
Defined.

Lemma execute_API_error_witness :
  exists q' o r,
    execute
        sample_checkValid sample_decode sample_canonical sample_range_order sample_error_transport
        sample_get_builder (IPtr "old")
    = Return (q', o)
    /\ r ∈ out_sent o
    /\ out_err o = Some (Errorf ("API error: " +:+ resp_String sample_error_response))
    /\ out_data o = IPtr "old".
Proof.
  destruct (execute
      sample_checkValid sample_decode sample_canonical sample_range_order sample_error_transport
      sample_get_builder
              (IPtr "old")) as [msg|[q' o]] eqn:He; [discriminate He|].
  sent_request He r Hr.
  exists q', o, r. split; [reflexivity|]. split; [exact Hr|].
  apply (execute_API_error
      sample_checkValid sample_decode sample_canonical sample_range_order sample_error_transport
           sample_get_builder q' (IPtr "old") o r sample_error_response He Hr);
    reflexivity.
Defined.

Lemma execute_transport_error_witness :
  exists q' o r,
    execute
        sample_checkValid sample_decode sample_canonical sample_range_order sample_failing_transport
        sample_get_builder (IPtr "old")
    = Return (q', o)
    /\ r ∈ out_sent o
    /\ out_err o = Some (TransportError "connection refused")
    /\ out_data o = IPtr "old".
Proof.
  destruct (execute
      sample_checkValid sample_decode sample_canonical sample_range_order sample_failing_transport
      sample_get_builder
              (IPtr "old")) as [msg|[q' o]] eqn:He; [discriminate He|].
  sent_request He r Hr.
  exists q', o, r. split; [reflexivity|]. split; [exact Hr|].
  apply (execute_transport_error
      sample_checkValid sample_decode sample_canonical sample_range_order sample_failing_transport
           sample_get_builder q' (IPtr "old") o r "connection refused" He Hr);
    reflexivity.
Defined.

Lemma First_limit_one_witness :
  exists q' o r,
    First
        sample_checkValid sample_decode sample_canonical sample_range_order sample_transport
        (Limit sample_get_builder 50) (IPtr "")
    = Return (q', o)
    /\ r ∈ out_sent o
    /\ req_query r !! "limit" = Some ["limit=1"]
    /\ q' = Limit (Limit sample_get_builder 50) 1.
Proof.
  destruct (First
      sample_checkValid sample_decode sample_canonical sample_range_order sample_transport
      (Limit sample_get_builder 50)
              (IPtr "")) as [msg|[q' o]] eqn:He; [discriminate He|].
  sent_request He r Hr.
  exists q', o, r. split; [reflexivity|]. split; [exact Hr|].
  apply (First_limit_one
      sample_checkValid sample_decode sample_canonical sample_range_order sample_transport
           (Limit sample_get_builder 50) q' (IPtr "") o r);
    (reflexivity || assumption).
Defined.

Lemma execute_one_request_witness :
  exists q' o,
    execute
        sample_checkValid sample_decode sample_canonical sample_range_order sample_transport
        (Raw sample_get_builder "select 1")
      (IPtr "") = Return (q', o)
    /\ (length (out_sent o) <= 1)%nat
    /\ q' = (if decide (rawQuery (Raw sample_get_builder "select 1") ≠ "")
             then set_method MethodPost (Raw sample_get_builder "select 1")
             else Raw sample_get_builder "select 1").
Proof.
  destruct (execute
      sample_checkValid sample_decode sample_canonical sample_range_order sample_transport
              (Raw sample_get_builder "select 1") (IPtr ""))
    as [msg|[q' o]] eqn:He; [discriminate He|].
  exists q', o. split; [reflexivity|].
  apply (execute_one_request
      sample_checkValid sample_decode sample_canonical sample_range_order sample_transport
           (Raw sample_get_builder "select 1") q' (IPtr "") o He).
Defined.

Lemma nil_data_not_decoded_witness :
  exists q' o r,
    execute
        sample_checkValid sample_decode sample_canonical sample_range_order sample_transport
        sample_get_builder INil = Return (q', o)
    /\ r ∈ out_sent o
    /\ out_err o = None /\ out_data o = INil.
Proof.
  destruct (execute
      sample_checkValid sample_decode sample_canonical sample_range_order sample_transport
      sample_get_builder INil)
    as [msg|[q' o]] eqn:He; [discriminate He|].
  sent_request He r Hr.
  exists q', o, r. split; [reflexivity|]. split; [exact Hr|].
  apply (nil_data_not_decoded
      sample_checkValid sample_decode sample_canonical sample_range_order sample_transport
      sample_get_builder
           q' o r sample_response); (reflexivity || assumption).
Defined.

Lemma select_param_witness :
  exists q' o r,
    execute
        sample_checkValid sample_decode sample_canonical sample_range_order sample_transport
      (Join sample_get_builder "posts" "id" "eq" "user_id") (IPtr "")
    = Return (q', o)
    /\ r ∈ out_sent o
    /\ req_query r !! "select" = Some ["id,name,posts(*)"].
Proof.
  destruct (execute
      sample_checkValid sample_decode sample_canonical sample_range_order sample_transport
              (Join sample_get_builder "posts" "id" "eq" "user_id") (IPtr ""))
    as [msg|[q' o]] eqn:He; [discriminate He|].
  sent_request He r Hr.
  exists q', o, r. split; [reflexivity|]. split; [exact Hr|].
  apply (select_param
      sample_checkValid sample_decode sample_canonical sample_range_order sample_transport
           (Join sample_get_builder "posts" "id" "eq" "user_id") q' (IPtr "") o r);
    (reflexivity || assumption).
Defined.

Lemma filters_sent_as_and_witness :
  exists q' o r,
    execute
        sample_checkValid sample_decode sample_canonical sample_range_order sample_transport
      (Where sample_get_builder "name" "eq" (VString "John")) (IPtr "")
    = Return (q', o)
    /\ r ∈ out_sent o
    /\ req_query r !! "and" = Some ["age.gt.18"; "name.eq.John"].
Proof.
  destruct (execute
      sample_checkValid sample_decode sample_canonical sample_range_order sample_transport
              (Where sample_get_builder "name" "eq" (VString "John")) (IPtr ""))
    as [msg|[q' o]] eqn:He; [discriminate He|].
  sent_request He r Hr.
  exists q', o, r. split; [reflexivity|]. split; [exact Hr|].
  apply (filters_sent_as_and
      sample_checkValid sample_decode sample_canonical sample_range_order sample_transport
           (Where sample_get_builder "name" "eq" (VString "John")) q' (IPtr "") o r);
    (reflexivity || assumption).
Defined.

Lemma no_other_query_key_witness :
  exists q' o r,
    execute
        sample_checkValid sample_decode sample_canonical sample_range_order sample_transport
      (Count (Or sample_get_builder ["name=eq.John"; "name=eq.Jane"])) (IPtr "")
    = Return (q', o)
    /\ r ∈ out_sent o
    /\ req_query r !! "count" = None
    /\ req_query r !! "or" = None.
Proof.
  destruct (execute
      sample_checkValid sample_decode sample_canonical sample_range_order sample_transport
              (Count (Or sample_get_builder ["name=eq.John"; "name=eq.Jane"]))
              (IPtr "")) as [msg|[q' o]] eqn:He; [discriminate He|].
  sent_request He r Hr.
  exists q', o, r. split; [reflexivity|]. split; [exact Hr|].
  split.
  - apply (no_other_query_key
      sample_checkValid sample_decode sample_canonical sample_range_order sample_transport
             (Count (Or sample_get_builder ["name=eq.John"; "name=eq.Jane"]))
             q' (IPtr "") o r "count" He Hr).
    rewrite !not_elem_of_cons. repeat split; (discriminate || apply not_elem_of_nil).
  - apply (no_other_query_key
      sample_checkValid sample_decode sample_canonical sample_range_order sample_transport
             (Count (Or sample_get_builder ["name=eq.John"; "name=eq.Jane"]))
             q' (IPtr "") o r "or" He Hr).
    rewrite !not_elem_of_cons. repeat split; (discriminate || apply not_elem_of_nil).
Defined.

Lemma Get_pointer_decoded_witness :
  exists q' o r,
    Get
        sample_checkValid sample_decode sample_canonical sample_range_order sample_transport
        sample_get_builder (IPtr "old")
    = Return (q', o)
    /\ r ∈ out_sent o
    /\ out_err o
       = UnmarshalError <$> (sample_decode (resp_Body sample_response) "old").2
    /\ out_data o = IPtr (sample_decode (resp_Body sample_response) "old").1
    /\ req_method r = MethodGet /\ req_body r = None
    /\ req_query r = queryParams sample_get_builder.
Proof.
  destruct (Get
      sample_checkValid sample_decode sample_canonical sample_range_order sample_transport
      sample_get_builder (IPtr "old"))
    as [msg|[q' o]] eqn:He; [discriminate He|].
  sent_request He r Hr.
  exists q', o, r. split; [reflexivity|]. split; [exact Hr|].
  apply (Get_pointer_decoded
      sample_checkValid sample_decode sample_canonical sample_range_order sample_transport
      sample_get_builder
           q' "old" o r sample_response); (reflexivity || assumption).
Defined.
